(** * Live-captioning client: session protocol and reconciliation engine

    Shallow embedding of [src/utils/websocketManager.ts] (the classes
    [WebSocketManager] and [AudioManager]) and of the callbacks that the
    room page installs on them, followed by the properties of the
    specification that concern them.

    Conventions of the embedding.
    - A method of a class is a function from the state of the object to the
      new state, its return value and the list of things it did to the
      outside world (observer callbacks invoked, frames handed to the
      socket), oldest first.
    - The observers are the five callbacks the room page registers; the
      manager is modelled with all five installed, as the page does.
    - JSON objects used as dictionaries ([translations], the page's
      [transcriptMap]) are finite maps; an optional or possibly-[undefined]
      property is an [option]. *)

From Stdlib Require Import ZArith Ascii String List Lia.
From stdpp Require Import base strings gmap list sorting pretty.

Local Open Scope string_scope.
Local Open Scope list_scope.

(** ** JavaScript numbers, as far as the engine uses them

    Timestamps and probabilities arrive as JSON numbers and are only ever
    compared with [===], tested for truthiness and spliced into a string.
    A number is represented by the decimal it denotes, [mant * 10^(-scale)];
    this covers the finite decimals that survive a round trip through a
    double unchanged (up to 15 significant digits, magnitude within
    [1e-6, 1e21)), on which [===] is equality of values and the string
    conversion prints the shortest decimal. *)
Module JsNumber.

Record number := Dec { mant : Z; scale : nat }.

Definition of_Z (z : Z) : number := Dec z 0.

(** [a === b] *)
Definition strict_eq (a b : number) : bool :=
  (mant a * 10 ^ Z.of_nat (scale b) =? mant b * 10 ^ Z.of_nat (scale a))%Z.

(** Truthiness of a number: only zero is falsy. *)
Definition truthy (a : number) : bool := negb (mant a =? 0)%Z.

(** Trailing zeros of the fraction are not printed. *)
Fixpoint normalize (m : Z) (s : nat) : Z * nat :=
  match s with
  | O => (m, O)
  | S s' => if (m mod 10 =? 0)%Z then normalize (m / 10) s' else (m, s)
  end.

Fixpoint zeros (n : nat) : string :=
  match n with
  | O => ""
  | S n' => "0" +:+ zeros n'
  end.

Definition pad_fraction (width : nat) (digits : string) : string :=
  zeros (width - String.length digits) +:+ digits.

(** [String(a)], also what a template literal and [+] with a string do. *)
Definition to_string (a : number) : string :=
  let '(m, s) := normalize (mant a) (scale a) in
  let sign := if (m <? 0)%Z then "-" else "" in
  let p := (10 ^ Z.of_nat s)%Z in
  let int_part := pretty (Z.to_N (Z.abs m / p)) in
  match s with
  | O => sign +:+ int_part
  | S _ => sign +:+ int_part +:+ "." +:+
           pad_fraction s (pretty (Z.to_N (Z.abs m mod p)))
  end.

End JsNumber.

Export JsNumber(number, Dec).

(** Truthiness of a string: only the empty string is falsy. *)
Definition truthy_string (s : string) : bool :=
  match s with
  | EmptyString => false
  | String _ _ => true
  end.

(** Truthiness of an optional string property ([undefined] is falsy). *)
Definition truthy_opt (o : option string) : bool :=
  match o with
  | Some s => truthy_string s
  | None => false
  end.

(** [o || fallback] for an optional string property. *)
Definition or_else (o : option string) (fallback : string) : string :=
  match o with
  | Some s => if truthy_string s then s else fallback
  | None => fallback
  end.

(** [s.includes(sub)] *)
Definition includes (s sub : string) : bool :=
  match String.index 0 sub s with
  | Some _ => true
  | None => false
  end.

Abbreviation Translations := (gmap string string).

(** ** Data exchanged with the server and with the observers *)

Module TranscriptionData.
(** [interface TranscriptionData]; only the properties the engine reads. *)
Record t := mk {
  uid : option string;
  text : string;
  language : option string;
  completed : bool;
  client_name : option string
}.
End TranscriptionData.

Module TranscriptSegment.
(** [interface TranscriptSegment], the argument of [onTranscription]. *)
Record t := mk {
  id : string;
  text : string;
  timestamp : number;
  name : string;
  completed : option bool;
  language : option string;
  translations : option Translations
}.

Definition with_translations (tr : option Translations) (d : t) : t :=
  mk (id d) (text d) (timestamp d) (name d) (completed d) (language d) tr.
End TranscriptSegment.

Module ServerConfig.
Record t := mk {
  serverUrl : string;
  serverPort : string;
  model : string;
  useVad : bool;
  username : string;
  selectedDeviceId : option string
}.
End ServerConfig.

(** The connection status passed to [onStatusChange]. *)
Inductive Status := Connected | Disconnected | Error | Waiting | Connecting.

Global Instance Status_eq_dec : EqDecision Status.
Proof. solve_decision. Defined.

(** [WebSocket.readyState] *)
Inductive ReadyState := CONNECTING | OPEN | CLOSING | CLOSED.

Global Instance ReadyState_eq_dec : EqDecision ReadyState.
Proof. solve_decision. Defined.

(** An [ArrayBuffer] of captured samples. *)
Definition ArrayBuffer := list Byte.byte.

(** What the manager hands to [socket.send]. *)
Inductive Outbound :=
| Handshake (uid name model : string) (use_vad : bool)
| AudioData (audioData : ArrayBuffer)
| DisconnectNotice (uid : string).

(** An observer callback together with its arguments. *)
Inductive Callback :=
| StatusChange (status : Status)
| Transcription (data : TranscriptSegment.t)
| LanguageDetected (language : string) (probability : number)
| AvailableLanguagesChange (languages : list string)
| Summary (summary : string) (timestamp : Z).

(** What a method of the manager does to the outside world. *)
Inductive Action :=
| Notify (c : Callback)
| SocketSend (o : Outbound)
| SocketClose.

(** *** Inbound messages *)

(** The value of [data.transcript] or [data.multilingual_transcript]. *)
Inductive Payload (A : Type) :=
| Absent                               (* the property is undefined *)
| NotAnObject                          (* null or a primitive value *)
| Segments (recent_segments : list A). (* [recent_segments || []] *)
Arguments Absent {A}.
Arguments NotAnObject {A}.
Arguments Segments {A} recent_segments.

Module RecentSegment.
Record t := mk { id : Z; timestamp : number; data : TranscriptionData.t }.
End RecentSegment.

Module RecentTranslation.
Record t := mk { id : Z; timestamp : number; translations : Translations }.
End RecentTranslation.

Module Message.
(** The object [JSON.parse(event.data)] returns. *)
Record t := mk {
  uid : option string;
  status : option string;
  message : option string;
  backend : option string;
  language : option string;
  language_prob : option number;
  summary : option string;
  transcript : Payload RecentSegment.t;
  multilingual_transcript : Payload RecentTranslation.t;
  last_segments : option (list (number * TranscriptionData.t));
  available_languages : option (list string)
}.

Definition empty : t :=
  mk None None None None None None None Absent Absent None None.
End Message.

(** [event.data] of a [MessageEvent]. *)
Inductive MessageData :=
| Binary (buffer : ArrayBuffer)   (* instanceof ArrayBuffer *)
| Unparsable (raw : string)       (* JSON.parse throws *)
| Json (data : Message.t).

(** ** [class WebSocketManager] *)
Module WebSocketManager.

(** The fields of the class. [socket] holds the ready state of the socket
    object the manager currently refers to ([None] for [null]). *)
Record t := mk {
  socket : option ReadyState;
  uid : string;
  config : ServerConfig.t;
  packetCount : nat;
  serverBackend : option string;
  lastResponseReceived : Z;
  transcript : list (number * TranscriptionData.t);
  multilingualTranscript : list (number * Translations);
  lastSegment : option (list (number * TranscriptionData.t));
  availableLanguages : list string;
  meetingSummary : string;
  _processedTranscriptIds : gset Z;
  _processedTranslationIds : gset Z
}.

Definition set_socket (v : option ReadyState) (m : t) : t :=
  mk v (uid m) (config m) (packetCount m) (serverBackend m)
     (lastResponseReceived m) (transcript m) (multilingualTranscript m)
     (lastSegment m) (availableLanguages m) (meetingSummary m)
     (_processedTranscriptIds m) (_processedTranslationIds m).

Definition set_packetCount (v : nat) (m : t) : t :=
  mk (socket m) (uid m) (config m) v (serverBackend m)
     (lastResponseReceived m) (transcript m) (multilingualTranscript m)
     (lastSegment m) (availableLanguages m) (meetingSummary m)
     (_processedTranscriptIds m) (_processedTranslationIds m).

Definition set_serverBackend (v : option string) (m : t) : t :=
  mk (socket m) (uid m) (config m) (packetCount m) v
     (lastResponseReceived m) (transcript m) (multilingualTranscript m)
     (lastSegment m) (availableLanguages m) (meetingSummary m)
     (_processedTranscriptIds m) (_processedTranslationIds m).

Definition set_lastResponseReceived (v : Z) (m : t) : t :=
  mk (socket m) (uid m) (config m) (packetCount m) (serverBackend m)
     v (transcript m) (multilingualTranscript m)
     (lastSegment m) (availableLanguages m) (meetingSummary m)
     (_processedTranscriptIds m) (_processedTranslationIds m).

Definition set_transcript
    (ids : gset Z) (v : list (number * TranscriptionData.t)) (m : t) : t :=
  mk (socket m) (uid m) (config m) (packetCount m) (serverBackend m)
     (lastResponseReceived m) v (multilingualTranscript m)
     (lastSegment m) (availableLanguages m) (meetingSummary m)
     ids (_processedTranslationIds m).

Definition set_multilingualTranscript
    (ids : gset Z) (v : list (number * Translations)) (m : t) : t :=
  mk (socket m) (uid m) (config m) (packetCount m) (serverBackend m)
     (lastResponseReceived m) (transcript m) v
     (lastSegment m) (availableLanguages m) (meetingSummary m)
     (_processedTranscriptIds m) ids.

Definition set_lastSegment
    (v : option (list (number * TranscriptionData.t))) (m : t) : t :=
  mk (socket m) (uid m) (config m) (packetCount m) (serverBackend m)
     (lastResponseReceived m) (transcript m) (multilingualTranscript m)
     v (availableLanguages m) (meetingSummary m)
     (_processedTranscriptIds m) (_processedTranslationIds m).

Definition set_availableLanguages (v : list string) (m : t) : t :=
  mk (socket m) (uid m) (config m) (packetCount m) (serverBackend m)
     (lastResponseReceived m) (transcript m) (multilingualTranscript m)
     (lastSegment m) v (meetingSummary m)
     (_processedTranscriptIds m) (_processedTranslationIds m).

Definition set_meetingSummary (v : string) (m : t) : t :=
  mk (socket m) (uid m) (config m) (packetCount m) (serverBackend m)
     (lastResponseReceived m) (transcript m) (multilingualTranscript m)
     (lastSegment m) (availableLanguages m) v
     (_processedTranscriptIds m) (_processedTranslationIds m).

(** [constructor(config)]; [random_uid] is the value of
    [Math.random().toString(36).substring(2, 15)]. *)
Definition constructor (cfg : ServerConfig.t) (random_uid : string) : t :=
  mk None random_uid cfg 0 (Some "") 0%Z [] [] None [] "" ∅ ∅.

(** The URL [connect] builds. *)
Definition url (cfg : ServerConfig.t) : string :=
  if includes (ServerConfig.serverUrl cfg) "localhost"
     || includes (ServerConfig.serverUrl cfg) "127.0.0.1"
  then "ws://" +:+ ServerConfig.serverUrl cfg +:+ ":" +:+ ServerConfig.serverPort cfg
  else "wss://" +:+ ServerConfig.serverUrl cfg +:+ ":" +:+ ServerConfig.serverPort cfg.

(** [connect()]. [url_accepted] tells whether [new WebSocket(url)] returns
    (it throws on a malformed URL, which lands in the [catch]). A new
    socket starts in [CONNECTING]. *)
Definition connect (url_accepted : bool) (m : t) : bool * t * list Action :=
  if url_accepted then
    (true, set_packetCount 0 (set_socket (Some CONNECTING) m),
     [Notify (StatusChange Connecting)])
  else
    (false, m, [Notify (StatusChange Connecting); Notify (StatusChange Error)]).

(** [socket.send(payload)] as the browser defines it: it throws while the
    socket is still connecting ([None]), transmits when it is open and
    silently discards the payload once the socket is closing or closed. *)
Definition socket_send (rs : ReadyState) (payload : Outbound) : option (list Action) :=
  match rs with
  | CONNECTING => None
  | OPEN => Some [SocketSend payload]
  | CLOSING | CLOSED => Some []
  end.

(** [handleOpen()] *)
Definition handleOpen (m : t) : list Action :=
  match socket m with
  | Some OPEN =>
      [SocketSend (Handshake (uid m) (ServerConfig.username (config m))
                             (ServerConfig.model (config m))
                             (ServerConfig.useVad (config m)))]
  | _ => []
  end.

(** [handleStatusMessages(data)]; called only when [data.status] is truthy. *)
Definition handleStatusMessages (data : Message.t) : list Action :=
  match Message.status data with
  | Some "WAIT" => [Notify (StatusChange Waiting)]
  | Some "ERROR" => [Notify (StatusChange Error)]
  | _ => []
  end.

(** [this.multilingualTranscript.find(([transTime, _]) => transTime === timestamp)]
    followed by taking the second component of the match. *)
Definition find_translation
    (timestamp : number) (ml : list (number * Translations)) : option Translations :=
  snd <$> List.find (fun entry => JsNumber.strict_eq (fst entry) timestamp) ml.

(** The object [updateUI] passes to [onTranscription] for one entry of
    [this.transcript]. *)
Definition finalized_segment
    (ml : list (number * Translations))
    (entry : number * TranscriptionData.t) : TranscriptSegment.t :=
  let timestamp := fst entry in
  let segment := snd entry in
  TranscriptSegment.mk
    (or_else (TranscriptionData.uid segment)
             ("transcript-" +:+ JsNumber.to_string timestamp))
    (TranscriptionData.text segment)
    timestamp
    (or_else (TranscriptionData.client_name segment) "Unknown")
    (Some (TranscriptionData.completed segment || true))
    (TranscriptionData.language segment)
    (find_translation timestamp ml).

(** The objects [updateUI] passes to [onTranscription] for the in-progress
    segment: the first element of [this.lastSegment], when it has text. *)
Definition in_progress_segment
    (last : option (list (number * TranscriptionData.t))) : list TranscriptSegment.t :=
  match last with
  | Some ((timestamp, data) :: _) =>
      if truthy_string (TranscriptionData.text data) then
        [TranscriptSegment.mk
           ("in-progress-" +:+ JsNumber.to_string timestamp)
           (TranscriptionData.text data)
           timestamp
           (or_else (TranscriptionData.client_name data) "Unknown")
           (Some false)
           (TranscriptionData.language data)
           (Some ∅)]
      else []
  | _ => []
  end.

(** [updateUI()]: it only reads the manager. *)
Definition updateUI (m : t) : list Action :=
  map (fun entry => Notify (Transcription (finalized_segment (multilingualTranscript m) entry)))
      (transcript m)
  ++ map (fun d => Notify (Transcription d)) (in_progress_segment (lastSegment m)).

(** One turn of the loop over [transcript.recent_segments]. *)
Definition record_segment
    (acc : gset Z * list (number * TranscriptionData.t))
    (segment : RecentSegment.t) : gset Z * list (number * TranscriptionData.t) :=
  if decide (RecentSegment.id segment ∈ acc.1) then acc
  else ({[RecentSegment.id segment]} ∪ acc.1,
        acc.2 ++ [(RecentSegment.timestamp segment, RecentSegment.data segment)]).

(** One turn of the loop over [multilingualTranscript.recent_segments]. *)
Definition record_translation
    (acc : gset Z * list (number * Translations))
    (translation : RecentTranslation.t) : gset Z * list (number * Translations) :=
  if decide (RecentTranslation.id translation ∈ acc.1) then acc
  else ({[RecentTranslation.id translation]} ∪ acc.1,
        acc.2 ++ [(RecentTranslation.timestamp translation,
                   RecentTranslation.translations translation)]).

Definition process_transcript (p : Payload RecentSegment.t) (m : t) : t :=
  match p with
  | Segments recentSegments =>
      let acc := foldl record_segment (_processedTranscriptIds m, transcript m) recentSegments in
      set_transcript acc.1 acc.2 m
  | _ => m
  end.

Definition process_multilingual (p : Payload RecentTranslation.t) (m : t) : t :=
  match p with
  | Segments recentTranslations =>
      let acc := foldl record_translation
                       (_processedTranslationIds m, multilingualTranscript m)
                       recentTranslations in
      set_multilingualTranscript acc.1 acc.2 m
  | _ => m
  end.

(** [processSegments(multilingualTranscript, transcript, lastSegment,
    availableLanguages)]. The two "initialize tracking sets if they don't
    exist" guards never fire: both fields are initialised with a [Set] when
    the object is built and are never assigned again. *)
Definition processSegments
    (now : Z)
    (multilingual : Payload RecentTranslation.t)
    (transcript_ : Payload RecentSegment.t)
    (last : option (list (number * TranscriptionData.t)))
    (languages : list string) (m : t) : t * list Action :=
  let m1 := set_availableLanguages languages m in
  let m2 := process_transcript transcript_ m1 in
  let m3 := process_multilingual multilingual m2 in
  let m4 := set_lastResponseReceived now (set_lastSegment last m3) in
  (m4, Notify (AvailableLanguagesChange languages) :: updateUI m4).

(** [data.uid && data.uid !== this.uid] *)
Definition uid_mismatch (data : Message.t) (m : t) : bool :=
  match Message.uid data with
  | Some u => truthy_string u && negb (String.eqb u (uid m))
  | None => false
  end.

(** The part of [handleMessage] that handles [data.summary]. *)
Definition handle_summary (now : Z) (data : Message.t) (m : t) : t * list Action :=
  match Message.summary data with
  | Some s =>
      (set_meetingSummary s (set_lastResponseReceived now m),
       [Notify (Summary s now)])
  | None => (m, [])
  end.

(** The part of [handleMessage] that handles [data.transcript]. *)
Definition handle_transcript (now : Z) (data : Message.t) (m : t) : t * list Action :=
  match Message.transcript data with
  | Absent => (m, [])
  | _ =>
      processSegments now
        (Message.multilingual_transcript data)
        (Message.transcript data)
        (Message.last_segments data)
        (default [] (Message.available_languages data))
        (set_lastResponseReceived now m)
  end.

(** [handleMessage(event)]; [now] is the value of [Date.now()]. *)
Definition handleMessage (now : Z) (event : MessageData) (m : t) : t * list Action :=
  match event with
  | Binary _ => (m, [])
  | Unparsable _ => (m, [])
  | Json data =>
      if uid_mismatch data m then (m, [])
      else if truthy_opt (Message.status data) then (m, handleStatusMessages data)
      else if decide (Message.message data = Some "DISCONNECT") then
        (m, [Notify (StatusChange Disconnected)])
      else if decide (Message.message data = Some "SERVER_READY") then
        (set_serverBackend (Message.backend data) (set_lastResponseReceived now m),
         [Notify (StatusChange Connected)])
      else
        match Message.language data, Message.language_prob data with
        | Some l, Some p =>
            if truthy_string l && JsNumber.truthy p then
              (m, [Notify (LanguageDetected l p)])
            else
              let (m1, a1) := handle_summary now data m in
              let (m2, a2) := handle_transcript now data m1 in
              (m2, a1 ++ a2)
        | _, _ =>
            let (m1, a1) := handle_summary now data m in
            let (m2, a2) := handle_transcript now data m1 in
            (m2, a1 ++ a2)
        end
  end.

(** [handleError(event)] *)
Definition handleError (m : t) : t * list Action :=
  (m, [Notify (StatusChange Error)]).

(** [handleClose(event)] *)
Definition handleClose (m : t) : t * list Action :=
  (set_lastSegment None
     (set_multilingualTranscript (_processedTranslationIds m) []
        (set_transcript (_processedTranscriptIds m) [] m)),
   [Notify (StatusChange Disconnected)]).

(** [sendAudio(audioData)] *)
Definition sendAudio (audioData : ArrayBuffer) (m : t) : bool * t * list Action :=
  match socket m with
  | Some OPEN =>
      match socket_send OPEN (AudioData audioData) with
      | Some sent => (true, set_packetCount (S (packetCount m)) m, sent)
      | None => (false, m, [])
      end
  | _ => (false, m, [])
  end.

(** [disconnect()] *)
Definition disconnect (m : t) : t * list Action :=
  let notice :=
    match socket m with
    | Some OPEN => default [] (socket_send OPEN (DisconnectNotice (uid m)))
    | _ => []
    end in
  let closing :=
    match socket m with
    | Some _ => [SocketClose]
    | None => []
    end in
  (set_socket None m, notice ++ closing).

End WebSocketManager.

(** ** [class AudioManager], as far as the capture state goes *)
Module AudioManager.

(** [ready] holds when [initialize] succeeded, that is when [microphone],
    [processor] and [audioContext] are all non-null. *)
Record t := mk { ready : bool; isRecording : bool; packetCount : nat }.

Definition constructor : t := mk false false 0.

(** [start()] *)
Definition start (a : t) : bool * t :=
  if ready a then (true, mk true true 0) else (false, a).

(** [stop()] *)
Definition stop (a : t) : t :=
  if isRecording a then mk (ready a) false (packetCount a) else a.

(** [handleAudioProcess(event)]: the copy of the input buffer handed to
    [onAudioData], if any. *)
Definition handleAudioProcess (inputData : ArrayBuffer) (a : t) : t * option ArrayBuffer :=
  if isRecording a then
    (mk (ready a) true (S (packetCount a)), Some inputData)
  else (a, None).

End AudioManager.

(** ** The room page: state and the callbacks it installs

    The page keeps its state in React state variables. The observers are
    created once, inside the effect that runs when the configuration has
    been loaded ([useEffect(..., [config])]); a state variable that such a
    callback mentions is the constant of the render in which the effect ran.
    A callback therefore takes two page states: [render], the values it
    closed over, and the state its setters act on. State written through a
    functional updater ([setTranscriptMap(prev => ...)]) reads the latter.
    The variables read this way are [isRecording], [connectionAttempts] and
    [status] in the status callback, [globalTranscriptId] in the
    transcription callback and [selectedLanguage] in the languages callback. *)
Module Room.

(** The state variables of the component. The last field is not React
    state: it is the entry [selectedLanguage] of the browser's
    [localStorage], which the languages callback consults. *)
Record State := mk {
  isRecording : bool;
  status : Status;
  transcriptMap : gmap string TranscriptSegment.t;
  globalTranscriptId : option string;
  latestTranscriptData : option TranscriptSegment.t;
  detectedLanguage : option string;
  availableLanguages : list string;
  selectedLanguage : option string;
  connectionError : option string;
  connectionAttempts : nat;
  newestTranscriptId : option string;
  meetingSummary : string;
  storedLanguage : option string
}.

Definition set_isRecording (v : bool) (s : State) : State :=
  mk v (status s) (transcriptMap s) (globalTranscriptId s)
    (latestTranscriptData s) (detectedLanguage s) (availableLanguages s)
    (selectedLanguage s) (connectionError s) (connectionAttempts s)
    (newestTranscriptId s) (meetingSummary s) (storedLanguage s).

Definition set_status (v : Status) (s : State) : State :=
  mk (isRecording s) v (transcriptMap s) (globalTranscriptId s)
    (latestTranscriptData s) (detectedLanguage s) (availableLanguages s)
    (selectedLanguage s) (connectionError s) (connectionAttempts s)
    (newestTranscriptId s) (meetingSummary s) (storedLanguage s).

Definition set_transcriptMap (v : gmap string TranscriptSegment.t) (s : State) : State :=
  mk (isRecording s) (status s) v (globalTranscriptId s)
    (latestTranscriptData s) (detectedLanguage s) (availableLanguages s)
    (selectedLanguage s) (connectionError s) (connectionAttempts s)
    (newestTranscriptId s) (meetingSummary s) (storedLanguage s).

Definition set_globalTranscriptId (v : option string) (s : State) : State :=
  mk (isRecording s) (status s) (transcriptMap s) v (latestTranscriptData s)
    (detectedLanguage s) (availableLanguages s) (selectedLanguage s)
    (connectionError s) (connectionAttempts s) (newestTranscriptId s)
    (meetingSummary s) (storedLanguage s).

Definition set_latestTranscriptData (v : option TranscriptSegment.t) (s : State) : State :=
  mk (isRecording s) (status s) (transcriptMap s) (globalTranscriptId s) v
    (detectedLanguage s) (availableLanguages s) (selectedLanguage s)
    (connectionError s) (connectionAttempts s) (newestTranscriptId s)
    (meetingSummary s) (storedLanguage s).

Definition set_detectedLanguage (v : option string) (s : State) : State :=
  mk (isRecording s) (status s) (transcriptMap s) (globalTranscriptId s)
    (latestTranscriptData s) v (availableLanguages s) (selectedLanguage s)
    (connectionError s) (connectionAttempts s) (newestTranscriptId s)
    (meetingSummary s) (storedLanguage s).

Definition set_availableLanguages (v : list string) (s : State) : State :=
  mk (isRecording s) (status s) (transcriptMap s) (globalTranscriptId s)
    (latestTranscriptData s) (detectedLanguage s) v (selectedLanguage s)
    (connectionError s) (connectionAttempts s) (newestTranscriptId s)
    (meetingSummary s) (storedLanguage s).

Definition set_selectedLanguage (v : option string) (s : State) : State :=
  mk (isRecording s) (status s) (transcriptMap s) (globalTranscriptId s)
    (latestTranscriptData s) (detectedLanguage s) (availableLanguages s) v
    (connectionError s) (connectionAttempts s) (newestTranscriptId s)
    (meetingSummary s) (storedLanguage s).

Definition set_connectionError (v : option string) (s : State) : State :=
  mk (isRecording s) (status s) (transcriptMap s) (globalTranscriptId s)
    (latestTranscriptData s) (detectedLanguage s) (availableLanguages s)
    (selectedLanguage s) v (connectionAttempts s) (newestTranscriptId s)
    (meetingSummary s) (storedLanguage s).

Definition set_connectionAttempts (v : nat) (s : State) : State :=
  mk (isRecording s) (status s) (transcriptMap s) (globalTranscriptId s)
    (latestTranscriptData s) (detectedLanguage s) (availableLanguages s)
    (selectedLanguage s) (connectionError s) v (newestTranscriptId s)
    (meetingSummary s) (storedLanguage s).

Definition set_newestTranscriptId (v : option string) (s : State) : State :=
  mk (isRecording s) (status s) (transcriptMap s) (globalTranscriptId s)
    (latestTranscriptData s) (detectedLanguage s) (availableLanguages s)
    (selectedLanguage s) (connectionError s) (connectionAttempts s) v
    (meetingSummary s) (storedLanguage s).

Definition set_meetingSummary (v : string) (s : State) : State :=
  mk (isRecording s) (status s) (transcriptMap s) (globalTranscriptId s)
    (latestTranscriptData s) (detectedLanguage s) (availableLanguages s)
    (selectedLanguage s) (connectionError s) (connectionAttempts s)
    (newestTranscriptId s) v (storedLanguage s).

Definition set_storedLanguage (v : option string) (s : State) : State :=
  mk (isRecording s) (status s) (transcriptMap s) (globalTranscriptId s)
    (latestTranscriptData s) (detectedLanguage s) (availableLanguages s)
    (selectedLanguage s) (connectionError s) (connectionAttempts s)
    (newestTranscriptId s) (meetingSummary s) v.

(** The values of the [useState] initialisers; [stored] is what
    [localStorage.getItem('selectedLanguage')] returns. *)
Definition initial (stored : option string) : State :=
  mk false Disconnected ∅ None None None []
     (if truthy_opt stored then stored else None)
     None 0 None "" stored.

(** What a callback asks of the objects held in the page's refs. *)
Inductive Command :=
| AudioStop                  (* audioManagerRef.current?.stop() *)
| SetTimeout (delay : Z).    (* setTimeout(<reconnect>, delay) *)

Definition failed_message (attempts : nat) : string :=
  "Failed to connect to server after " +:+ pretty attempts +:+
  " attempts. Please check your server URL and port. Make sure your server is running and accessible.".

Definition retrying_message (attempts : nat) : string :=
  "Connection attempt " +:+ pretty attempts +:+ " failed. Retrying...".

Definition capacity_message : string :=
  "Server is at capacity. Please wait until a slot becomes available.".

(** The callback assigned to [wsManagerRef.current.onStatusChange]. *)
Definition onStatusChange
    (render : State) (newStatus : Status) (s : State) : State * list Command :=
  let s1 := set_status newStatus s in
  let '(s2, stop) :=
    match newStatus with
    | Error | Disconnected =>
        if isRecording render then (set_isRecording false s1, [AudioStop])
        else (s1, [])
    | _ => (s1, [])
    end in
  match newStatus with
  | Error =>
      let attempts := connectionAttempts render + 1 in
      let s3 := set_connectionAttempts attempts s2 in
      if (3 <=? attempts)%nat then
        (set_connectionError (Some (failed_message attempts)) s3, stop)
      else
        (set_connectionError (Some (retrying_message attempts)) s3,
         stop ++ [SetTimeout 3000])
  | Connected =>
      (set_connectionAttempts 0 (set_connectionError None s2), stop)
  | Waiting =>
      (set_connectionError (Some capacity_message) s2, stop)
  | _ => (s2, stop)
  end.

(** The function handed to [setTimeout] by [onStatusChange]: whether it calls
    [connect()]. [wsManagerRef.current] is set before the callbacks are. *)
Definition reconnect_due (render : State) : bool :=
  negb (bool_decide (status render = Connected)).

(** The updater passed to [setTranscriptMap]. Every object [updateUI]
    emits carries all seven properties, so the spread of [data] over
    [existingTranscript] leaves [data]'s values; the translations are the
    two maps spread in turn, the incoming one last. *)
Definition updateTranscriptMap
    (data : TranscriptSegment.t)
    (prev : gmap string TranscriptSegment.t) : gmap string TranscriptSegment.t :=
  match prev !! TranscriptSegment.id data with
  | Some existingTranscript =>
      <[TranscriptSegment.id data :=
          TranscriptSegment.with_translations
            (Some (default ∅ (TranscriptSegment.translations data)
                   ∪ default ∅ (TranscriptSegment.translations existingTranscript)))
            data]> prev
  | None => <[TranscriptSegment.id data := data]> prev
  end.

Section Callbacks.

(** [Number(s)] for an id: [None] stands for [NaN]. *)
Variable Number : string → option Z.

(** The condition under which [onTranscription] calls
    [setGlobalTranscriptId]. *)
Definition id_is_newer (current : option string) (id : string) : bool :=
  negb (truthy_opt current)
  || match Number id, Number (default "" current) with
     | Some incoming, Some known => (known <? incoming)%Z
     | _, _ => false
     end.

(** The callback assigned to [wsManagerRef.current.onTranscription]. *)
Definition onTranscription
    (render : State) (data : TranscriptSegment.t) (s : State) : State :=
  if truthy_string (TranscriptSegment.id data) then
    let s1 := set_newestTranscriptId (Some (TranscriptSegment.id data)) s in
    let s2 := set_latestTranscriptData (Some data) s1 in
    let s3 :=
      if id_is_newer (globalTranscriptId render) (TranscriptSegment.id data)
      then set_globalTranscriptId (Some (TranscriptSegment.id data)) s2
      else s2 in
    set_transcriptMap (updateTranscriptMap data (transcriptMap s3)) s3
  else s.

(** The callback assigned to [wsManagerRef.current.onLanguageDetected]. *)
Definition onLanguageDetected (language : string) (s : State) : State :=
  set_detectedLanguage (Some language) s.

(** The callback assigned to
    [wsManagerRef.current.onAvailableLanguagesChange]. *)
Definition onAvailableLanguagesChange
    (render : State) (languages : list string) (s : State) : State :=
  let s1 := set_availableLanguages languages s in
  match languages with
  | first :: _ =>
      if truthy_opt (selectedLanguage render) then s1
      else
        match storedLanguage s1 with
        | Some saved =>
            if truthy_string saved && bool_decide (saved ∈ languages)
            then set_selectedLanguage (Some saved) s1
            else set_storedLanguage (Some first) (set_selectedLanguage (Some first) s1)
        | None =>
            set_storedLanguage (Some first) (set_selectedLanguage (Some first) s1)
        end
  | [] => s1
  end.

(** The callback assigned to [wsManagerRef.current.onSummary]. *)
Definition onSummary (summary : string) (s : State) : State :=
  if truthy_string summary then set_meetingSummary summary s else s.

(** The installed observer for each callback of the manager. *)
Definition dispatch (render : State) (c : Callback) (s : State) : State * list Command :=
  match c with
  | StatusChange newStatus => onStatusChange render newStatus s
  | Transcription data => (onTranscription render data s, [])
  | LanguageDetected language _ => (onLanguageDetected language s, [])
  | AvailableLanguagesChange languages =>
      (onAvailableLanguagesChange render languages s, [])
  | Summary summary _ => (onSummary summary s, [])
  end.

(** [toggleRecording]; it is re-created by every render, so it reads the
    current [isRecording]. Returns the audio manager as well. *)
Definition toggleRecording (audio : AudioManager.t) (s : State) : AudioManager.t * State :=
  if isRecording s then (AudioManager.stop audio, set_isRecording false s)
  else
    let (started, audio') := AudioManager.start audio in
    if started then (audio', set_isRecording true s)
    else (audio', set_connectionError
                    (Some "Failed to start recording. Please check your microphone.") s).

End Callbacks.

End Room.

(** [Number(s)] on the strings made of decimal digits only (the empty string
    converts to 0); used where a concrete conversion is needed. On these
    strings it agrees with JavaScript's conversion. *)
Module DecimalId.

Definition digit (c : ascii) : option Z :=
  let n := nat_of_ascii c in
  if (48 <=? n)%nat && (n <=? 57)%nat then Some (Z.of_nat (n - 48)) else None.

Fixpoint digits (acc : Z) (s : string) : option Z :=
  match s with
  | EmptyString => Some acc
  | String c rest =>
      match digit c with
      | Some d => digits (10 * acc + d)%Z rest
      | None => None
      end
  end.

Definition Number (s : string) : option Z := digits 0 s.

End DecimalId.

(** ** The page together with its two managers

    One value of [Session.t] is the state between two turns of the event
    loop; [Session.step] runs the handler of one event to completion. *)
Module Session.

Record t := mk {
  ws : WebSocketManager.t;      (* wsManagerRef.current *)
  audio : AudioManager.t;       (* audioManagerRef.current *)
  page : Room.State;
  timers : nat;                 (* reconnect timeouts set and not yet run *)
  wire : list Outbound          (* what the socket was given to send *)
}.

Definition set_ws (v : WebSocketManager.t) (x : t) : t :=
  mk v (audio x) (page x) (timers x) (wire x).

Definition set_audio (v : AudioManager.t) (x : t) : t :=
  mk (ws x) v (page x) (timers x) (wire x).

Definition set_page (v : Room.State) (x : t) : t :=
  mk (ws x) (audio x) v (timers x) (wire x).

Definition set_timers (v : nat) (x : t) : t :=
  mk (ws x) (audio x) (page x) v (wire x).

Definition set_wire (v : list Outbound) (x : t) : t :=
  mk (ws x) (audio x) (page x) (timers x) v.

(** The events of the loop. A socket event concerns the socket the manager
    refers to, or the one it has just let go of. *)
Inductive Event :=
| SocketOpened
| SocketFailed
| SocketClosed
| MessageReceived (now : Z) (data : MessageData)
| AudioProcess (inputData : ArrayBuffer)
| TimerFires
| ClickMic
| ClickRetry
| ClickLeave.

(** The browser moves the socket the manager refers to into a new state. *)
Definition socket_becomes (rs : ReadyState) (m : WebSocketManager.t) : WebSocketManager.t :=
  match WebSocketManager.socket m with
  | Some _ => WebSocketManager.set_socket (Some rs) m
  | None => m
  end.

Section Loop.

Variable Number : string → option Z.
(** Whether the WebSocket constructor accepts the configured URL. *)
Variable url_accepted : bool.
(** The page state the installed callbacks closed over. *)
Variable render : Room.State.

Definition run_command (x : t) (c : Room.Command) : t :=
  match c with
  | Room.AudioStop => set_audio (AudioManager.stop (audio x)) x
  | Room.SetTimeout _ => set_timers (S (timers x)) x
  end.

Definition perform (x : t) (a : Action) : t :=
  match a with
  | Notify c =>
      let (p, commands) := Room.dispatch Number render c (page x) in
      foldl run_command (set_page p x) commands
  | SocketSend o => set_wire (wire x ++ [o]) x
  | SocketClose => x
  end.

Definition perform_all (x : t) (actions : list Action) : t :=
  foldl perform x actions.

Definition connect (x : t) : t :=
  let '(_, m, actions) := WebSocketManager.connect url_accepted (ws x) in
  perform_all (set_ws m x) actions.

Definition step (x : t) (e : Event) : t :=
  match e with
  | SocketOpened =>
      let m := socket_becomes OPEN (ws x) in
      perform_all (set_ws m x) (WebSocketManager.handleOpen m)
  | SocketFailed =>
      let (m, actions) := WebSocketManager.handleError (ws x) in
      perform_all (set_ws m x) actions
  | SocketClosed =>
      let (m, actions) :=
        WebSocketManager.handleClose (socket_becomes CLOSED (ws x)) in
      perform_all (set_ws m x) actions
  | MessageReceived now data =>
      let (m, actions) := WebSocketManager.handleMessage now data (ws x) in
      perform_all (set_ws m x) actions
  | AudioProcess inputData =>
      let (a, frame) := AudioManager.handleAudioProcess inputData (audio x) in
      match frame with
      | Some audioData =>
          let '(_, m, actions) := WebSocketManager.sendAudio audioData (ws x) in
          perform_all (set_ws m (set_audio a x)) actions
      | None => set_audio a x
      end
  | TimerFires =>
      match timers x with
      | O => x
      | S n =>
          if Room.reconnect_due render then connect (set_timers n x)
          else set_timers n x
      end
  | ClickMic =>
      (* the button is disabled unless the status is 'connected' *)
      if bool_decide (Room.status (page x) = Connected) then
        let (a, p) := Room.toggleRecording (audio x) (page x) in
        set_page p (set_audio a x)
      else x
  | ClickRetry =>
      (* the button is rendered only for a terminal error *)
      if bool_decide (Room.status (page x) = Error)
         && (3 <=? Room.connectionAttempts (page x))%nat
         && bool_decide (is_Some (Room.connectionError (page x)))
      then connect x
      else x
  | ClickLeave =>
      let (m, actions) := WebSocketManager.disconnect (ws x) in
      perform_all (set_ws m (set_audio (AudioManager.stop (audio x)) x)) actions
  end.

Definition run (x : t) (events : list Event) : t := foldl step x events.

End Loop.

(** The effect that runs once the configuration is loaded: it sets the
    status to 'connecting', builds the manager, installs the callbacks,
    calls [connect()] and initialises the audio manager ([microphone_ok]
    tells whether [initialize] succeeds). The effect depends on [config]
    alone, so it runs in the render that follows [setConfig] and never
    again; nothing has touched the other state variables by then, and the
    callbacks close over their initial values. *)
Definition mounted_render (stored : option string) : Room.State :=
  Room.initial stored.

Definition mount
    (Number : string → option Z) (url_accepted : bool)
    (cfg : ServerConfig.t) (random_uid : string)
    (stored : option string) (microphone_ok : bool) : t :=
  let x0 := mk (WebSocketManager.constructor cfg random_uid)
               AudioManager.constructor
               (Room.set_status Connecting (Room.initial stored)) 0 [] in
  let x1 := connect Number url_accepted (mounted_render stored) x0 in
  if microphone_ok then set_audio (AudioManager.mk true false 0) x1
  else set_page
         (Room.set_connectionError
            (Some "Failed to access microphone. Please check your browser permissions.")
            (page x1)) x1.

End Session.

(** * More of the code *)

(** ** Ordering numbers and [Array.prototype.sort] *)
Module JsOrder.

(** [a - b <= 0] on numbers. *)
Definition leb (a b : number) : bool :=
  (JsNumber.mant a * 10 ^ Z.of_nat (JsNumber.scale b)
   <=? JsNumber.mant b * 10 ^ Z.of_nat (JsNumber.scale a))%Z.

(** [a || 0] *)
Definition or_zero (a : number) : number :=
  if JsNumber.truthy a then a else JsNumber.of_Z 0.

(** [l.sort(compare)]. The sort is stable, so for a consistent comparator
    its result is that of an insertion sort that puts an element in front of
    the first later one it does not exceed. [le a b] tells whether
    [compare(a, b) <= 0]. *)
Fixpoint insert {A : Type} (le : A → A → bool) (x : A) (l : list A) : list A :=
  match l with
  | [] => [x]
  | y :: rest => if le x y then x :: y :: rest else y :: insert le x rest
  end.

Definition sort {A : Type} (le : A → A → bool) (l : list A) : list A :=
  foldr (insert le) [] l.

(** Whether a property key is an array index: the canonical decimal form of
    an integer below 2^32 - 1. Such keys come first when the properties of
    an object are enumerated. *)
Definition array_index (key : string) : option Z :=
  match key with
  | EmptyString => None
  | String c rest =>
      if Ascii.eqb c "0" && negb (String.eqb rest "") then None
      else
        match DecimalId.digits 0 key with
        | Some n => if (n <? 4294967295)%Z then Some n else None
        | None => None
        end
  end.

Definition index_leb {V : Type} (a b : string * V) : bool :=
  match array_index a.1, array_index b.1 with
  | Some i, Some j => (i <=? j)%Z
  | _, _ => true
  end.

(** [Object.entries(o)] for an object whose properties were created in the
    order of the list [o]: array indices in ascending order, then the other
    keys in creation order. *)
Definition object_entries {V : Type} (o : list (string * V)) : list (string * V) :=
  sort index_leb (filter (fun kv => is_Some (array_index kv.1)) o)
  ++ filter (fun kv => ¬ is_Some (array_index kv.1)) o.

End JsOrder.

(** ** The values the room page derives from its state

    These are the [useMemo] values of the component; they are computed in
    every render from the current state. [values] stands for
    [Object.values(transcriptMap)], the entries of the store in the order
    the engine enumerates them. *)
Module RoomDerived.

Record GroupedTranscription := mkThread {
  speaker : string;
  isUser : bool;
  segments : list TranscriptSegment.t;
  lastTimestamp : number
}.

(** [t => t.timestamp && t.text] *)
Definition valid (t : TranscriptSegment.t) : bool :=
  JsNumber.truthy (TranscriptSegment.timestamp t)
  && truthy_string (TranscriptSegment.text t).

(** [(a, b) => (a.timestamp || 0) - (b.timestamp || 0)], as [<= 0]. *)
Definition by_timestamp (a b : TranscriptSegment.t) : bool :=
  JsOrder.leb (JsOrder.or_zero (TranscriptSegment.timestamp a))
              (JsOrder.or_zero (TranscriptSegment.timestamp b)).

(** [transcripts] *)
Definition transcripts (values : list TranscriptSegment.t) : list TranscriptSegment.t :=
  JsOrder.sort by_timestamp (filter (fun t => valid t = true) values).

(** The filter of [displayTranscripts]. *)
Definition within_global_id
    (Number : string → option Z) (globalTranscriptId : string)
    (t : TranscriptSegment.t) : bool :=
  if truthy_string (TranscriptSegment.id t) then
    match Number (TranscriptSegment.id t), Number globalTranscriptId with
    | Some own, Some known => (own <=? known)%Z
    | _, _ => true
    end
  else true.

(** [displayTranscripts] *)
Definition displayTranscripts
    (Number : string → option Z)
    (transcripts_ : list TranscriptSegment.t)
    (globalTranscriptId : option string)
    (latestTranscriptData : option TranscriptSegment.t) : list TranscriptSegment.t :=
  match globalTranscriptId with
  | Some g =>
      if truthy_string g
      then filter (fun t => within_global_id Number g t = true) transcripts_
      else option_list latestTranscriptData
  | None => option_list latestTranscriptData
  end.

(** [t.translations && Object.keys(t.translations).length > 0] *)
Definition has_translations (t : TranscriptSegment.t) : bool :=
  match TranscriptSegment.translations t with
  | Some tr => negb (bool_decide (tr = ∅))
  | None => false
  end.

(** [displayTranslations] *)
Definition displayTranslations
    (displayed : list TranscriptSegment.t) : list TranscriptSegment.t :=
  filter (fun t => has_translations t = true) displayed.

(** [transcript.name || 'Unknown'] *)
Definition speaker_of (t : TranscriptSegment.t) : string :=
  if truthy_string (TranscriptSegment.name t) then TranscriptSegment.name t
  else "Unknown".

(** One turn of the [forEach] that fills [speakerMap]: the segment is pushed
    on the list of its speaker, which is created at the end of the object
    when the speaker is new. *)
Fixpoint push_segment
    (sp : string) (t : TranscriptSegment.t)
    (speakerMap : list (string * list TranscriptSegment.t))
    : list (string * list TranscriptSegment.t) :=
  match speakerMap with
  | [] => [(sp, [t])]
  | (k, l) :: rest =>
      if decide (k = sp) then (k, l ++ [t]) :: rest
      else (k, l) :: push_segment sp t rest
  end.

Definition speakerMap_of (validTranscripts : list TranscriptSegment.t)
    : list (string * list TranscriptSegment.t) :=
  foldl (fun m t => push_segment (speaker_of t) t m) [] validTranscripts.

(** [segments[0].timestamp || 0] *)
Definition first_timestamp (segments_ : list TranscriptSegment.t) : number :=
  match segments_ with
  | t :: _ => JsOrder.or_zero (TranscriptSegment.timestamp t)
  | [] => JsNumber.of_Z 0
  end.

(** [segments[segments.length - 1].timestamp || Date.now()] *)
Definition last_timestamp (now : Z) (segments_ : list TranscriptSegment.t) : number :=
  match last segments_ with
  | Some t =>
      if JsNumber.truthy (TranscriptSegment.timestamp t)
      then TranscriptSegment.timestamp t else JsNumber.of_Z now
  | None => JsNumber.of_Z now
  end.

Definition thread_of
    (username : option string) (now : Z)
    (entry : string * list TranscriptSegment.t) : GroupedTranscription :=
  mkThread entry.1 (bool_decide (Some entry.1 = username)) entry.2
           (last_timestamp now entry.2).

(** The comparator of the final sort, as [<= 0]. *)
Definition by_first_message (a b : GroupedTranscription) : bool :=
  JsOrder.leb (first_timestamp (segments a)) (first_timestamp (segments b)).

(** [conversationThreads]; [username] is [config?.username] and [now] the
    value of [Date.now()]. *)
Definition conversationThreads
    (username : option string) (now : Z)
    (transcripts_ : list TranscriptSegment.t) : list GroupedTranscription :=
  let validTranscripts :=
    JsOrder.sort by_timestamp (filter (fun t => valid t = true) transcripts_) in
  let threads :=
    map (thread_of username now)
        (JsOrder.object_entries (speakerMap_of validTranscripts)) in
  JsOrder.sort by_first_message threads.

(** [userTranscripts] *)
Definition userTranscripts
    (username : option string) (transcripts_ : list TranscriptSegment.t)
    : list TranscriptSegment.t :=
  match filter (fun t => Some (TranscriptSegment.name t) = username) transcripts_ with
  | [] => option_list (head transcripts_)
  | userSegments => userSegments
  end.

(** [otherTranscripts] *)
Definition otherTranscripts
    (username : option string) (transcripts_ : list TranscriptSegment.t)
    : list TranscriptSegment.t :=
  filter (fun t => Some (TranscriptSegment.name t) ≠ username) transcripts_.

End RoomDerived.

(** ** [class AudioManager] with all its fields

    [AudioManager] above keeps what the session needs of the class; here
    every field is present. A resource the browser hands out (the media
    stream, the audio context, the two nodes) is represented by whether the
    field holds one. *)
Module AudioCapture.

Record t := mk {
  audioContext : bool;
  microphone : bool;
  processor : bool;
  isRecording : bool;
  stream : bool;
  packetCount : nat;
  currentDeviceId : option string
}.

(** [constructor(onAudioData)] *)
Definition constructor : t := mk false false false false false 0 None.

(** How far [initialize] gets before something throws or is missing. *)
Inductive Outcome :=
| MediaDenied        (* getUserMedia rejects *)
| NoAudioContext     (* no AudioContext class, or its constructor throws twice *)
| SourceFailed       (* createMediaStreamSource throws *)
| ProcessorFailed    (* createScriptProcessor throws *)
| Acquired.

(** [stop()] *)
Definition stop (a : t) : t :=
  if isRecording a then
    mk (audioContext a) (microphone a) (processor a) false (stream a)
       (packetCount a) (currentDeviceId a)
  else a.

(** [cleanup()] *)
Definition cleanup (a : t) : t :=
  let a1 := stop a in
  mk false false false (isRecording a1) false (packetCount a1) (currentDeviceId a1).

(** [initialize(deviceId)]: the returned promise's value and the state once
    it has settled. *)
Definition initialize (deviceId : option string) (outcome : Outcome) (a : t) : bool * t :=
  let device := if truthy_opt deviceId then deviceId else None in
  let a1 := cleanup (mk (audioContext a) (microphone a) (processor a) (isRecording a)
                        (stream a) (packetCount a) device) in
  let held (ctx mic proc str : bool) :=
    mk ctx mic proc (isRecording a1) str (packetCount a1) (currentDeviceId a1) in
  match outcome with
  | MediaDenied => (false, a1)
  | NoAudioContext => (false, held false false false true)
  | SourceFailed => (false, held true false false true)
  | ProcessorFailed => (false, held true true false true)
  | Acquired => (true, held true true true true)
  end.

(** [start()] *)
Definition start (a : t) : bool * t :=
  if microphone a && processor a && audioContext a then
    (true, mk (audioContext a) (microphone a) (processor a) true (stream a)
              0 (currentDeviceId a))
  else (false, a).

(** [handleAudioProcess(event)]: the buffer handed to [onAudioData], if any. *)
Definition handleAudioProcess (inputData : ArrayBuffer) (a : t) : t * option ArrayBuffer :=
  if isRecording a then
    (mk (audioContext a) (microphone a) (processor a) true (stream a)
        (S (packetCount a)) (currentDeviceId a),
     Some inputData)
  else (a, None).

(** A call of one of the methods. *)
Inductive Call :=
| CallInitialize (deviceId : option string) (outcome : Outcome)
| CallStart
| CallStop
| CallCleanup
| CallAudioProcess (inputData : ArrayBuffer).

Definition call (a : t) (c : Call) : t :=
  match c with
  | CallInitialize deviceId outcome => (initialize deviceId outcome a).2
  | CallStart => (start a).2
  | CallStop => stop a
  | CallCleanup => cleanup a
  | CallAudioProcess inputData => (handleAudioProcess inputData a).1
  end.

(** What [AudioManager] keeps of the state. *)
Definition abstraction (a : t) : AudioManager.t :=
  AudioManager.mk (microphone a && processor a && audioContext a)
                  (isRecording a) (packetCount a).

End AudioCapture.

(** * Vocabulary of the properties *)

(** ** What a batch of actions contains *)

(** The arguments of the [onTranscription] calls among some actions, in the
    order of the calls. *)
Definition transcriptions (actions : list Action) : list TranscriptSegment.t :=
  omap (fun a => match a with
                 | Notify (Transcription d) => Some d
                 | _ => None
                 end) actions.

(** The observer callbacks among some actions. *)
Definition callbacks (actions : list Action) : list Callback :=
  omap (fun a => match a with Notify c => Some c | _ => None end) actions.

(** The in-progress ([completed: false]) segments among the emitted ones. *)
Definition live_emitted (actions : list Action) : list TranscriptSegment.t :=
  filter (fun d => TranscriptSegment.completed d = Some false) (transcriptions actions).

(** The delays of the reconnections a callback scheduled. *)
Definition timeouts (commands : list Room.Command) : list Z :=
  omap (fun c => match c with Room.SetTimeout delay => Some delay | _ => None end)
       commands.

(** ** Messages of the three kinds the engine reconciles *)

(** A message that carries only finalized segments. *)
Definition transcript_event (segments : list RecentSegment.t) : MessageData :=
  Json (Message.mk None None None None None None None
          (Segments segments) Absent None None).

(** A message that carries only translation entries, next to a transcript
    object without segments. *)
Definition translation_event (entries : list RecentTranslation.t) : MessageData :=
  Json (Message.mk None None None None None None None
          (Segments []) (Segments entries) None None).

(** A message that carries only an in-progress segment. *)
Definition live_event (last : list (number * TranscriptionData.t)) : MessageData :=
  Json (Message.mk None None None None None None None
          (Segments []) Absent (Some last) None).

(** Whether [last_segments] designates an in-progress segment with text. *)
Definition live_text (last : option (list (number * TranscriptionData.t))) : bool :=
  match last with
  | Some ((_, data) :: _) => truthy_string (TranscriptionData.text data)
  | _ => false
  end.

(** ** The manager's logs *)

(** The id under which [updateUI] emits an entry of the log. *)
Definition entry_key (entry : number * TranscriptionData.t) : string :=
  or_else (TranscriptionData.uid entry.2)
          ("transcript-" +:+ JsNumber.to_string entry.1).

(** What the log gains from a segment, given the ids seen so far. *)
Definition new_entry (m : WebSocketManager.t) (segment : RecentSegment.t)
    : list (number * TranscriptionData.t) :=
  if decide (RecentSegment.id segment ∈ WebSocketManager._processedTranscriptIds m)
  then []
  else [(RecentSegment.timestamp segment, RecentSegment.data segment)].

(** What the translation log gains from an entry. *)
Definition new_translation (m : WebSocketManager.t) (entry : RecentTranslation.t)
    : list (number * Translations) :=
  if decide (RecentTranslation.id entry ∈ WebSocketManager._processedTranslationIds m)
  then []
  else [(RecentTranslation.timestamp entry, RecentTranslation.translations entry)].

(** Both loops of [processSegments] have this shape: an element whose key
    has been seen is skipped, another one is logged and its key recorded. *)
Definition record_once {A B : Type} (key : A → Z) (val : A → B)
    (acc : gset Z * list B) (x : A) : gset Z * list B :=
  if decide (key x ∈ acc.1) then acc
  else ({[key x]} ∪ acc.1, acc.2 ++ [val x]).

(** The log gains at most one entry, and that entry has the timestamp [T]. *)
Definition at_most_one_at
    (T : number) (new : list (number * TranscriptionData.t)) : Prop :=
  new = [] ∨ ∃ e, new = [e] ∧ JsNumber.strict_eq T e.1 = true.

(** [disconnect()] followed by the close event of the socket it closed and
    by a new [connect()]. *)
Definition reconnect (m : WebSocketManager.t) : WebSocketManager.t :=
  let m1 := (WebSocketManager.disconnect m).1 in
  let m2 := (WebSocketManager.handleClose m1).1 in
  (WebSocketManager.connect true m2).1.2.

(** ** The keyed transcript store *)

(** What one [onTranscription] call does to the store: nothing for an empty
    id, the updater of [setTranscriptMap] otherwise. *)
Definition store_put
    (store : gmap string TranscriptSegment.t) (data : TranscriptSegment.t)
    : gmap string TranscriptSegment.t :=
  if truthy_string (TranscriptSegment.id data)
  then Room.updateTranscriptMap data store
  else store.

Definition store_put_all
    (store : gmap string TranscriptSegment.t) (ds : list TranscriptSegment.t)
    : gmap string TranscriptSegment.t :=
  foldl store_put store ds.

(** The translations of a stored or emitted segment, [{}] when absent. *)
Definition tr_of (d : TranscriptSegment.t) : Translations :=
  default ∅ (TranscriptSegment.translations d).

Definition tr_opt (o : option TranscriptSegment.t) : Translations :=
  from_option tr_of ∅ o.

(** The entry written for [d] when the store holds [o] under its id. *)
Definition merge_into
    (o : option TranscriptSegment.t) (d : TranscriptSegment.t) : TranscriptSegment.t :=
  match o with
  | Some e => TranscriptSegment.with_translations (Some (tr_of d ∪ tr_of e)) d
  | None => d
  end.

Definition merge_list
    (o : option TranscriptSegment.t) (ds : list TranscriptSegment.t)
    : option TranscriptSegment.t :=
  foldl (fun o d => Some (merge_into o d)) o ds.

(** The segments of a list that are written under the key [k]. *)
Definition hits (k : string) (ds : list TranscriptSegment.t) : list TranscriptSegment.t :=
  filter (fun d => k = TranscriptSegment.id d) ds.

(** The translations already gathered by a list of writes to one key; a
    later write takes precedence. *)
Definition gathered (ds : list TranscriptSegment.t) : Translations :=
  foldl (fun u d => tr_of d ∪ u) ∅ ds.

(** ** The global advancing identifier *)

(** The identifier after one more id, for a callback that reads [current]. *)
Definition advance
    (Number : string → option Z) (current : option string) (id : string)
    : option string :=
  if Room.id_is_newer Number current id then Some id else current.

(** ** Further vocabulary for the manager *)

(** The payloads handed to the socket among some actions. *)
Definition transmitted (actions : list Action) : list Outbound :=
  omap (fun a => match a with SocketSend o => Some o | _ => None end) actions.

(** The messages that [handleMessage] answers before it looks at
    [data.summary] and [data.transcript]: status messages, DISCONNECT,
    SERVER_READY and language detection. *)
Definition is_control (data : Message.t) : bool :=
  truthy_opt (Message.status data)
  || bool_decide (Message.message data = Some "DISCONNECT")
  || bool_decide (Message.message data = Some "SERVER_READY")
  || match Message.language data, Message.language_prob data with
     | Some l, Some p => truthy_string l && JsNumber.truthy p
     | _, _ => false
     end.

(** What an inbound message may do to a manager: both logs only gain entries
    at their end, both sets of seen ids only gain members, and the
    connection (socket, identity, configuration, packet counter) stays. *)
Definition log_extends (m m' : WebSocketManager.t) : Prop :=
  WebSocketManager.transcript m `prefix_of` WebSocketManager.transcript m'
  ∧ WebSocketManager.multilingualTranscript m
      `prefix_of` WebSocketManager.multilingualTranscript m'
  ∧ WebSocketManager._processedTranscriptIds m
      ⊆ WebSocketManager._processedTranscriptIds m'
  ∧ WebSocketManager._processedTranslationIds m
      ⊆ WebSocketManager._processedTranslationIds m'
  ∧ WebSocketManager.socket m' = WebSocketManager.socket m
  ∧ WebSocketManager.uid m' = WebSocketManager.uid m
  ∧ WebSocketManager.config m' = WebSocketManager.config m
  ∧ WebSocketManager.packetCount m' = WebSocketManager.packetCount m.

(** The manager after a sequence of [message] events, each with the value
    of [Date.now()] at its arrival. *)
Definition receive_all (events : list (Z * MessageData)) (m : WebSocketManager.t)
    : WebSocketManager.t :=
  foldl (fun acc e => (WebSocketManager.handleMessage e.1 e.2 acc).1) m events.

(** The server ids a payload delivers. *)
Definition delivered_ids {A : Type} (key : A → Z) (p : Payload A) : gset Z :=
  match p with
  | Segments l => list_to_set (key <$> l)
  | _ => ∅
  end.

(** [sendAudio] called for each frame in turn: the final manager and
    everything done on the way. *)
Definition send_all (frames : list ArrayBuffer) (m : WebSocketManager.t)
    : WebSocketManager.t * list Action :=
  foldl (fun acc audioData =>
           let '(_, m', actions) := WebSocketManager.sendAudio audioData acc.1 in
           (m', acc.2 ++ actions))
        (m, []) frames.

(** ** Conversation threads *)

(** What the [forEach] of [conversationThreads] maintains: after the
    segments [processed], the object [speakerMap] has one property for each
    speaker met, holding that speaker's segments in the order met. *)
Definition grouped_by_speaker
    (processed : list TranscriptSegment.t)
    (speakerMap : list (string * list TranscriptSegment.t)) : Prop :=
  NoDup speakerMap.*1
  ∧ Forall (fun kl => kl.2 = filter (fun t => RoomDerived.speaker_of t = kl.1) processed
                      ∧ kl.2 ≠ []) speakerMap
  ∧ Forall (fun t => RoomDerived.speaker_of t ∈ speakerMap.*1) processed.

(** ** Concrete sessions used in the examples *)

(** A configuration and a freshly mounted page used in the examples. *)
Definition example_config : ServerConfig.t :=
  ServerConfig.mk "example.org" "443" "large-v3" true "tien" None.

Definition example_session : Session.t :=
  Session.mount DecimalId.Number true example_config "abc" None true.

Definition example_run : Session.t → list Session.Event → Session.t :=
  Session.run DecimalId.Number true (Session.mounted_render None).

Definition segment_one : RecentSegment.t :=
  RecentSegment.mk 0 (JsNumber.of_Z 1)
    (TranscriptionData.mk None "one" None true None).

Definition segment_two : RecentSegment.t :=
  RecentSegment.mk 0 (JsNumber.of_Z 2)
    (TranscriptionData.mk None "two" None true None).

(** A manager that connected and received [segment_one]. *)
Definition first_connection : WebSocketManager.t :=
  let m0 := WebSocketManager.constructor example_config "abc" in
  let m1 := (WebSocketManager.connect true m0).1.2 in
  let m2 := WebSocketManager.set_socket (Some OPEN) m1 in
  (WebSocketManager.handleMessage 10 (transcript_event [segment_one]) m2).1.

Definition live_3_0 : MessageData :=
  live_event [(Dec 30 1, TranscriptionData.mk None "hel" None false None)].

Definition live_3_5 : MessageData :=
  live_event [(Dec 35 1, TranscriptionData.mk None "hello" None false None)].

(** The first connection and two retries all fail: each failure is the
    socket's error event followed by its close event, and between two
    failures the scheduled reconnection runs. *)
Definition three_failures : list Session.Event :=
  [Session.SocketFailed; Session.SocketClosed; Session.TimerFires;
   Session.SocketFailed; Session.SocketClosed; Session.TimerFires;
   Session.SocketFailed; Session.SocketClosed].

(** The first connection fails. *)
Definition one_failure : list Session.Event :=
  [Session.SocketFailed; Session.SocketClosed].

Definition server_ready : MessageData :=
  Json (Message.mk None None (Some "SERVER_READY") (Some "faster_whisper")
          None None None Absent Absent None None).

Definition server_error : MessageData :=
  Json (Message.mk None (Some "ERROR") (Some "overloaded") None
          None None None Absent Absent None None).

Definition frame : ArrayBuffer := [Byte.x01; Byte.x02; Byte.x03; Byte.x04].

(** The page connects and the user starts the microphone. *)
Definition recording : list Session.Event :=
  [Session.SocketOpened; Session.MessageReceived 1 server_ready; Session.ClickMic].

Definition segment_seven : RecentSegment.t :=
  RecentSegment.mk 1 (JsNumber.of_Z 10)
    (TranscriptionData.mk (Some "7") "seven" None true None).

Definition segment_five : RecentSegment.t :=
  RecentSegment.mk 2 (JsNumber.of_Z 11)
    (TranscriptionData.mk (Some "5") "five" None true None).

(** ** Further vocabulary for the session *)

(** What an event hands to the socket, told from the state before it: the
    handshake when the socket opens, the frame when the audio processor
    fires during a recording and the socket is open, the disconnect notice
    when the user leaves through an open socket, and nothing otherwise. *)
Definition sent_on (x : Session.t) (e : Session.Event) : list Outbound :=
  let m := Session.ws x in
  match e with
  | Session.SocketOpened =>
      if bool_decide (is_Some (WebSocketManager.socket m)) then
        [Handshake (WebSocketManager.uid m)
                   (ServerConfig.username (WebSocketManager.config m))
                   (ServerConfig.model (WebSocketManager.config m))
                   (ServerConfig.useVad (WebSocketManager.config m))]
      else []
  | Session.AudioProcess inputData =>
      if AudioManager.isRecording (Session.audio x)
         && bool_decide (WebSocketManager.socket m = Some OPEN)
      then [AudioData inputData] else []
  | Session.ClickLeave =>
      if bool_decide (WebSocketManager.socket m = Some OPEN)
      then [DisconnectNotice (WebSocketManager.uid m)] else []
  | _ => []
  end.

(** The events through which the page calls [connect()] again. *)
Definition reconnects (e : Session.Event) : bool :=
  match e with
  | Session.TimerFires | Session.ClickRetry => true
  | _ => false
  end.

(** The languages in which the store holds a translation under a key. *)
Definition stored_languages
    (store : gmap string TranscriptSegment.t) (key : string) : gset string :=
  dom (tr_opt (store !! key)).

(** A manager that holds a translation for timestamp 1. *)
Definition translated_connection : WebSocketManager.t :=
  (WebSocketManager.handleMessage 11
     (translation_event [RecentTranslation.mk 9 (JsNumber.of_Z 1) {[ "es" := "uno" ]}])
     first_connection).1.

(** A status message that also carries a summary and a transcript. *)
Definition loaded_status_message : Message.t :=
  Message.mk None (Some "WAIT") (Some "5") None None None (Some "minutes")
    (Segments [segment_two]) Absent None (Some ["en"]).

(** * Properties *)

(** ** Sending audio *)

(** C8. [sendAudio(frame)] returns true exactly when the socket exists and is
    open; it then hands exactly that frame to the socket and increments the
    packet counter, and changes nothing else; otherwise it returns false,
    sends nothing and leaves the manager as it was. *)
Theorem sendAudio_only_when_open (audioData : ArrayBuffer) (m : WebSocketManager.t) :
  WebSocketManager.sendAudio audioData m =
    if bool_decide (WebSocketManager.socket m = Some OPEN)
    then (true,
          WebSocketManager.set_packetCount (S (WebSocketManager.packetCount m)) m,
          [SocketSend (AudioData audioData)])
    else (false, m, []).
Proof.
  unfold WebSocketManager.sendAudio.
  destruct (WebSocketManager.socket m) as [[]|]; reflexivity.
Qed.

(** ** Session identity *)

Lemma set_ws_same (x : Session.t) : Session.set_ws (Session.ws x) x = x.
Proof. by destruct x. Qed.

Lemma string_eqb_neq (a b : string) : a ≠ b → String.eqb a b = false.
Proof. intros H. by apply String.eqb_neq. Qed.

Lemma truthy_string_nonempty (s : string) : s ≠ "" → truthy_string s = true.
Proof. by destruct s. Qed.

(** C4 (amended). A message whose [uid] is a non-empty string different from
    the session identity is ignored: the manager is left unchanged and
    invokes no callback, and the page state, the audio manager, the timers
    and the socket traffic stay as they were. *)
Theorem foreign_uid_message_ignored
    (Number : string → option Z) (url_accepted : bool) (render : Room.State)
    (now : Z) (data : Message.t) (u : string) (x : Session.t) :
  Message.uid data = Some u →
  u ≠ "" →
  u ≠ WebSocketManager.uid (Session.ws x) →
  WebSocketManager.handleMessage now (Json data) (Session.ws x) = (Session.ws x, [])
  ∧ Session.step Number url_accepted render x (Session.MessageReceived now (Json data)) = x.
Proof.
  intros Hu Hne Hdiff.
  assert (Hm : WebSocketManager.handleMessage now (Json data) (Session.ws x)
               = (Session.ws x, [])).
  { unfold WebSocketManager.handleMessage, WebSocketManager.uid_mismatch.
    rewrite Hu, (truthy_string_nonempty _ Hne), (string_eqb_neq _ _ Hdiff).
    reflexivity. }
  split; [exact Hm|].
  cbn [Session.step]. rewrite Hm. cbn. apply set_ws_same.
Qed.

Lemma foreign_uid_message_ignored_witness :
  let data := Message.mk (Some "xyz") None (Some "SERVER_READY")
                None None None None Absent Absent None None in
  WebSocketManager.handleMessage 7 (Json data) (Session.ws example_session)
    = (Session.ws example_session, [])
  ∧ example_run example_session [Session.MessageReceived 7 (Json data)]
    = example_session.
Proof.
  intros data.
  apply (foreign_uid_message_ignored DecimalId.Number true
           (Session.mounted_render None) 7 data "xyz" example_session);
    [reflexivity | discriminate | discriminate].
Defined.

(** C4, as stated, fails for an empty [uid]: it differs from the session
    identity "abc", yet the message is processed and the status changes. *)
Lemma empty_uid_message_processed :
  let data := Message.mk (Some "") None (Some "SERVER_READY")
                None None None None Absent Absent None None in
  Message.uid data ≠ Some (WebSocketManager.uid (Session.ws example_session))
  ∧ callbacks (WebSocketManager.handleMessage 7 (Json data)
                 (Session.ws example_session)).2
    = [StatusChange Connected]
  ∧ Room.status (Session.page example_session) = Connecting
  ∧ Room.status (Session.page
       (example_run example_session [Session.MessageReceived 7 (Json data)]))
    = Connected.
Proof. repeat split; [discriminate|..]; reflexivity. Qed.

(** ** What a transcript event emits *)

Lemma transcriptions_app (a b : list Action) :
  transcriptions (a ++ b) = transcriptions a ++ transcriptions b.
Proof. apply omap_app. Qed.

Lemma transcriptions_notify (ds : list TranscriptSegment.t) :
  transcriptions (map (fun d => Notify (Transcription d)) ds) = ds.
Proof. induction ds as [|d ds IH]; [done|]. cbn. by rewrite <- IH at 2. Qed.

Lemma transcriptions_updateUI (m : WebSocketManager.t) :
  transcriptions (WebSocketManager.updateUI m)
  = map (WebSocketManager.finalized_segment (WebSocketManager.multilingualTranscript m))
        (WebSocketManager.transcript m)
    ++ WebSocketManager.in_progress_segment (WebSocketManager.lastSegment m).
Proof.
  unfold WebSocketManager.updateUI.
  rewrite transcriptions_app, transcriptions_notify.
  f_equal.
  rewrite <- (transcriptions_notify
                (map _ (WebSocketManager.transcript m))).
  by rewrite map_map.
Qed.

Lemma processSegments_emits
    (now : Z) (multilingual : Payload RecentTranslation.t)
    (transcript_ : Payload RecentSegment.t)
    (last : option (list (number * TranscriptionData.t)))
    (languages : list string) (m : WebSocketManager.t) :
  let r := WebSocketManager.processSegments now multilingual transcript_ last languages m in
  transcriptions r.2
  = map (WebSocketManager.finalized_segment (WebSocketManager.multilingualTranscript r.1))
        (WebSocketManager.transcript r.1)
    ++ WebSocketManager.in_progress_segment last.
Proof.
  cbn zeta. unfold WebSocketManager.processSegments. cbn [fst snd].
  change (transcriptions (?a :: ?l)) with (transcriptions l).
  apply transcriptions_updateUI.
Qed.

Section RecordingLoop.

Context {A B : Type} (key : A → Z) (val : A → B).

Local Abbreviation record := (record_once key val).

Lemma record_log_grows (xs : list A) (acc : gset Z * list B) :
  acc.2 `prefix_of` (foldl record acc xs).2.
Proof.
  revert acc. induction xs as [|x xs IH]; intros acc; [done|].
  cbn [foldl]. etrans; [|apply IH].
  unfold record_once. destruct (decide _); [done|]. cbn. by apply prefix_app_r.
Qed.

Lemma record_seen_grows (xs : list A) (acc : gset Z * list B) :
  acc.1 ⊆ (foldl record acc xs).1.
Proof.
  revert acc. induction xs as [|x xs IH]; intros acc; [done|].
  cbn [foldl]. etrans; [|apply IH].
  unfold record_once. destruct (decide _); [done|]. cbn.
  apply union_subseteq_r.
Qed.

Lemma record_all_seen (xs : list A) (acc : gset Z * list B) :
  Forall (fun x => key x ∈ (foldl record acc xs).1) xs.
Proof.
  revert acc. induction xs as [|x xs IH]; intros acc; constructor; [|apply IH].
  cbn [foldl]. apply (record_seen_grows xs (record acc x)).
  unfold record_once. destruct (decide _); [done|]. cbn.
  apply elem_of_union_l, elem_of_singleton. done.
Qed.

Lemma record_seen_is_skipped (xs : list A) (acc : gset Z * list B) :
  Forall (fun x => key x ∈ acc.1) xs → foldl record acc xs = acc.
Proof.
  induction 1 as [|x xs Hx Hxs IH]; [done|].
  cbn [foldl]. unfold record_once at 2. by rewrite decide_True.
Qed.

(** Running the loop a second time over the same elements changes nothing. *)
Lemma record_twice (xs : list A) (acc : gset Z * list B) :
  foldl record (foldl record acc xs) xs = foldl record acc xs.
Proof. apply record_seen_is_skipped, record_all_seen. Qed.

End RecordingLoop.

Lemma process_transcript_log_grows
    (p : Payload RecentSegment.t) (m : WebSocketManager.t) :
  WebSocketManager.transcript m
    `prefix_of` WebSocketManager.transcript (WebSocketManager.process_transcript p m).
Proof.
  destruct p; [done|done|]. cbn.
  apply (record_log_grows RecentSegment.id
           (fun seg => (RecentSegment.timestamp seg, RecentSegment.data seg))
           recent_segments
           (WebSocketManager._processedTranscriptIds m, WebSocketManager.transcript m)).
Qed.

(** The two logs after an event do not change when the same event is
    processed again. *)
Lemma processSegments_twice
    (now now' : Z) (multilingual : Payload RecentTranslation.t)
    (transcript_ : Payload RecentSegment.t)
    (last : option (list (number * TranscriptionData.t)))
    (languages : list string) (m : WebSocketManager.t) :
  let r := WebSocketManager.processSegments now multilingual transcript_ last languages m in
  let r' := WebSocketManager.processSegments now' multilingual transcript_ last languages r.1 in
  WebSocketManager.transcript r'.1 = WebSocketManager.transcript r.1
  ∧ WebSocketManager.multilingualTranscript r'.1
    = WebSocketManager.multilingualTranscript r.1.
Proof.
  cbn zeta. unfold WebSocketManager.processSegments. cbn [fst snd].
  pose proof (record_twice RecentSegment.id
    (fun seg => (RecentSegment.timestamp seg, RecentSegment.data seg))) as Hseg.
  pose proof (record_twice RecentTranslation.id
    (fun t => (RecentTranslation.timestamp t, RecentTranslation.translations t)))
    as Htr.
  change (record_once RecentSegment.id _) with WebSocketManager.record_segment in Hseg.
  change (record_once RecentTranslation.id _)
    with WebSocketManager.record_translation in Htr.
  destruct multilingual as [| |entries], transcript_ as [| |segments];
    cbn; rewrite <- ?surjective_pairing, ?Hseg, ?Htr; done.
Qed.

Lemma process_multilingual_transcript
    (p : Payload RecentTranslation.t) (m : WebSocketManager.t) :
  WebSocketManager.transcript (WebSocketManager.process_multilingual p m)
  = WebSocketManager.transcript m.
Proof. by destruct p. Qed.

Lemma in_progress_count (last : option (list (number * TranscriptionData.t))) :
  length (WebSocketManager.in_progress_segment last)
  = if live_text last then 1 else 0.
Proof.
  destruct last as [[|[ts data] rest]|]; cbn; try done.
  by destruct (truthy_string _).
Qed.

(** C10. Every call of [processSegments] invokes [onTranscription] once for
    each entry of the whole finalized-segment log as it stands after the
    event, in log order and whether or not the entry is new, and then once
    more for the in-progress segment exactly when it carries text. The log
    before the event is a prefix of the log after it, so every segment
    delivered by an earlier event is delivered again; in particular an event
    that is processed a second time, bringing nothing new, makes the manager
    repeat exactly the same calls. *)
Theorem every_event_reemits_whole_log
    (now now' : Z) (multilingual : Payload RecentTranslation.t)
    (transcript_ : Payload RecentSegment.t)
    (last : option (list (number * TranscriptionData.t)))
    (languages : list string) (m : WebSocketManager.t) :
  let result :=
    WebSocketManager.processSegments now multilingual transcript_ last languages m in
  let again :=
    WebSocketManager.processSegments now' multilingual transcript_ last languages
      result.1 in
  transcriptions result.2
  = map (WebSocketManager.finalized_segment
           (WebSocketManager.multilingualTranscript result.1))
        (WebSocketManager.transcript result.1)
    ++ WebSocketManager.in_progress_segment last
  ∧ length (transcriptions result.2)
    = length (WebSocketManager.transcript result.1) + (if live_text last then 1 else 0)
  ∧ WebSocketManager.transcript m `prefix_of` WebSocketManager.transcript result.1
  ∧ transcriptions again.2 = transcriptions result.2.
Proof.
  cbn zeta.
  pose proof (processSegments_emits now multilingual transcript_ last languages m)
    as Hlist.
  cbn zeta in Hlist.
  split; [exact Hlist|]. split; [|split].
  - rewrite Hlist, length_app, length_map, in_progress_count. done.
  - unfold WebSocketManager.processSegments. cbn [fst snd].
    cbn. rewrite process_multilingual_transcript.
    apply (process_transcript_log_grows transcript_
             (WebSocketManager.set_availableLanguages languages m)).
  - rewrite Hlist, processSegments_emits.
    destruct (processSegments_twice now now' multilingual transcript_ last
                languages m) as [-> ->].
    done.
Qed.

(** ** Reconnecting *)

Lemma disconnect_keeps_seen_ids (m : WebSocketManager.t) :
  WebSocketManager._processedTranscriptIds (reconnect m)
  = WebSocketManager._processedTranscriptIds m
  ∧ WebSocketManager._processedTranslationIds (reconnect m)
  = WebSocketManager._processedTranslationIds m.
Proof. done. Qed.

(** C7 at the failing input. After [disconnect()], the close event and a new
    [connect()], the staging lists and the live-segment pointer are empty
    but the set of seen segment ids still holds the id 0 of the first
    connection; a segment with id 0 delivered by the new connection is
    therefore not recorded and never reaches [onTranscription], although a
    newly built manager records and emits it. *)
Theorem reconnect_ignores_reused_segment_id :
  let m := reconnect first_connection in
  let after := WebSocketManager.handleMessage 20 (transcript_event [segment_two]) m in
  let fresh := WebSocketManager.handleMessage 20 (transcript_event [segment_two])
                 (WebSocketManager.constructor example_config "abc") in
  WebSocketManager.transcript m = []
  ∧ WebSocketManager.multilingualTranscript m = []
  ∧ WebSocketManager.lastSegment m = None
  ∧ WebSocketManager._processedTranscriptIds m = {[ 0%Z ]}
  ∧ WebSocketManager.transcript after.1 = []
  ∧ transcriptions after.2 = []
  ∧ map TranscriptSegment.text (transcriptions fresh.2) = ["two"].
Proof. vm_compute. repeat split; reflexivity. Qed.

(** ** The keyed transcript store *)

Section StoreLemmas.

Implicit Types (s : gmap string TranscriptSegment.t) (d : TranscriptSegment.t).
Implicit Types (k : string) (o : option TranscriptSegment.t).

Lemma page_run_commands (x : Session.t) (commands : list Room.Command) :
  Session.page (foldl Session.run_command x commands) = Session.page x
  ∧ Session.ws (foldl Session.run_command x commands) = Session.ws x.
Proof.
  revert x. induction commands as [|c commands IH]; intros x; [done|].
  cbn [foldl]. destruct (IH (Session.run_command x c)) as [-> ->].
  by destruct c.
Qed.

Lemma transcriptMap_onStatusChange (render : Room.State) (st : Status) (p : Room.State) :
  Room.transcriptMap (Room.onStatusChange render st p).1 = Room.transcriptMap p.
Proof.
  unfold Room.onStatusChange.
  destruct st, (Room.isRecording render); cbn -[Nat.leb]; try done;
    by destruct (_ <=? _)%nat.
Qed.

Lemma transcriptMap_onAvailableLanguagesChange
    (render : Room.State) (languages : list string) (p : Room.State) :
  Room.transcriptMap (Room.onAvailableLanguagesChange render languages p)
  = Room.transcriptMap p.
Proof.
  unfold Room.onAvailableLanguagesChange.
  destruct languages as [|first rest]; [done|].
  destruct (truthy_opt _); [done|]. cbn.
  destruct (Room.storedLanguage p) as [saved|]; [|done].
  by destruct (_ && _).
Qed.

Lemma transcriptMap_onTranscription
    (Number : string → option Z) (render : Room.State) d (p : Room.State) :
  Room.transcriptMap (Room.onTranscription Number render d p)
  = store_put (Room.transcriptMap p) d.
Proof.
  unfold Room.onTranscription, store_put.
  destruct (truthy_string _); [|done].
  by destruct (Room.id_is_newer _ _ _).
Qed.

Lemma transcriptMap_dispatch
    (Number : string → option Z) (render : Room.State) (c : Callback) (p : Room.State) :
  Room.transcriptMap (Room.dispatch Number render c p).1
  = match c with
    | Transcription d => store_put (Room.transcriptMap p) d
    | _ => Room.transcriptMap p
    end.
Proof.
  destruct c; cbn [Room.dispatch fst].
  - apply transcriptMap_onStatusChange.
  - apply transcriptMap_onTranscription.
  - done.
  - apply transcriptMap_onAvailableLanguagesChange.
  - unfold Room.onSummary. by destruct (truthy_string _).
Qed.

Lemma perform_ws
    (Number : string → option Z) (render : Room.State) (x : Session.t) (a : Action) :
  Session.ws (Session.perform Number render x a) = Session.ws x.
Proof.
  destruct a as [c| |]; cbn; [|done|done].
  destruct (Room.dispatch Number render c (Session.page x)) as [p commands].
  by rewrite (proj2 (page_run_commands _ _)).
Qed.

Lemma perform_all_ws
    (Number : string → option Z) (render : Room.State)
    (actions : list Action) (x : Session.t) :
  Session.ws (Session.perform_all Number render x actions) = Session.ws x.
Proof.
  revert x. induction actions as [|a actions IH]; intros x; [done|].
  cbn. unfold Session.perform_all in IH. by rewrite IH, perform_ws.
Qed.

Lemma perform_transcriptMap
    (Number : string → option Z) (render : Room.State) (x : Session.t) (a : Action) :
  Room.transcriptMap (Session.page (Session.perform Number render x a))
  = store_put_all (Room.transcriptMap (Session.page x)) (transcriptions [a]).
Proof.
  destruct a as [c| |]; cbn; [|done|done].
  pose proof (transcriptMap_dispatch Number render c (Session.page x)) as H.
  destruct (Room.dispatch Number render c (Session.page x)) as [p commands].
  rewrite (proj1 (page_run_commands _ _)). cbn in *. rewrite H.
  by destruct c.
Qed.

Lemma store_put_all_app s (a b : list TranscriptSegment.t) :
  store_put_all s (a ++ b) = store_put_all (store_put_all s a) b.
Proof. apply foldl_app. Qed.

(** The store after a batch of actions is the store before it, updated with
    the emitted segments in order. *)
Lemma perform_all_transcriptMap
    (Number : string → option Z) (render : Room.State)
    (actions : list Action) (x : Session.t) :
  Room.transcriptMap (Session.page (Session.perform_all Number render x actions))
  = store_put_all (Room.transcriptMap (Session.page x)) (transcriptions actions).
Proof.
  revert x. induction actions as [|a actions IH]; intros x; [done|].
  change (a :: actions) with ([a] ++ actions).
  rewrite transcriptions_app, store_put_all_app,
    <- (perform_transcriptMap Number render).
  unfold Session.perform_all in *. cbn [foldl app]. apply IH.
Qed.

Lemma step_message_ws
    (Number : string → option Z) (url_accepted : bool) (render : Room.State)
    (x : Session.t) (now : Z) (data : MessageData) :
  Session.ws (Session.step Number url_accepted render x (Session.MessageReceived now data))
  = (WebSocketManager.handleMessage now data (Session.ws x)).1.
Proof.
  cbn [Session.step].
  destruct (WebSocketManager.handleMessage now data (Session.ws x)) as [m actions].
  by rewrite perform_all_ws.
Qed.

Lemma step_message_transcriptMap
    (Number : string → option Z) (url_accepted : bool) (render : Room.State)
    (x : Session.t) (now : Z) (data : MessageData) :
  Room.transcriptMap (Session.page
    (Session.step Number url_accepted render x (Session.MessageReceived now data)))
  = store_put_all (Room.transcriptMap (Session.page x))
      (transcriptions (WebSocketManager.handleMessage now data (Session.ws x)).2).
Proof.
  cbn [Session.step].
  destruct (WebSocketManager.handleMessage now data (Session.ws x)) as [m actions].
  by rewrite perform_all_transcriptMap.
Qed.

End StoreLemmas.

(** *** The store, one key at a time *)

Section KeyLemmas.

Implicit Types (s : gmap string TranscriptSegment.t) (d a b : TranscriptSegment.t).
Implicit Types (k : string) (o : option TranscriptSegment.t).
Implicit Types (ds : list TranscriptSegment.t).
Implicit Types (trl : list (number * Translations)).
Implicit Types (e : number * TranscriptionData.t).

Lemma store_put_lookup s d k :
  truthy_string (TranscriptSegment.id d) = true →
  store_put s d !! k
  = if decide (k = TranscriptSegment.id d) then Some (merge_into (s !! k) d)
    else s !! k.
Proof.
  intros Hid. unfold store_put, Room.updateTranscriptMap. rewrite Hid.
  destruct (decide (k = TranscriptSegment.id d)) as [->|Hne].
  - destruct (s !! TranscriptSegment.id d); by rewrite lookup_insert_eq.
  - destruct (s !! TranscriptSegment.id d); by rewrite lookup_insert_ne.
Qed.

Lemma store_put_all_lookup ds s k :
  Forall (fun d => truthy_string (TranscriptSegment.id d) = true) ds →
  store_put_all s ds !! k = merge_list (s !! k) (hits k ds).
Proof.
  intros Hall. revert s.
  induction Hall as [|d ds Hd Hds IH]; intros s; [done|].
  cbn [store_put_all foldl]. unfold store_put_all in IH. rewrite IH.
  rewrite (store_put_lookup _ _ _ Hd). unfold hits.
  destruct (decide (k = TranscriptSegment.id d)) as [Heq|Hne].
  - by rewrite filter_cons_True.
  - by rewrite filter_cons_False.
Qed.

Lemma merge_list_snoc o ds d :
  merge_list o (ds ++ [d]) = Some (merge_into (merge_list o ds) d).
Proof. unfold merge_list. by rewrite foldl_app. Qed.

Lemma gathered_snoc ds d : gathered (ds ++ [d]) = tr_of d ∪ gathered ds.
Proof. unfold gathered. by rewrite foldl_app. Qed.

Lemma merge_list_is_Some o ds :
  is_Some o ∨ ds ≠ [] → is_Some (merge_list o ds).
Proof.
  destruct ds as [|d ds _] using rev_ind.
  - intros [H|H]; [done|by destruct H].
  - intros _. rewrite merge_list_snoc. eauto.
Qed.

Lemma tr_of_merge_into o d : tr_of (merge_into o d) = tr_of d ∪ tr_opt o.
Proof.
  destruct o as [e0|]; cbn; [done|].
  by rewrite (right_id_L ∅ (∪)).
Qed.

(** The translations held after a series of writes to one key. *)
Lemma tr_opt_merge_list o ds :
  tr_opt (merge_list o ds) = gathered ds ∪ tr_opt o.
Proof.
  induction ds as [|d ds IH] using rev_ind.
  - cbn. by rewrite (left_id_L ∅ (∪)).
  - rewrite merge_list_snoc, gathered_snoc. cbn [tr_opt from_option].
    rewrite tr_of_merge_into, IH. by rewrite (assoc_L (∪)).
Qed.

(** Two entries with the same translations, as far as a non-empty series of
    writes can tell, end up as the same entry. *)
Lemma merge_list_absorb a b ds :
  ds ≠ [] →
  gathered ds ∪ tr_of a = gathered ds ∪ tr_of b →
  merge_list (Some a) ds = merge_list (Some b) ds.
Proof.
  destruct ds as [|d ds _] using rev_ind; [done|]. intros _ Heq.
  rewrite !merge_list_snoc. f_equal.
  destruct (merge_list_is_Some (Some a) ds) as [a' Ha]; [by left; eauto|].
  destruct (merge_list_is_Some (Some b) ds) as [b' Hb]; [by left; eauto|].
  pose proof (tr_opt_merge_list (Some a) ds) as Hta.
  pose proof (tr_opt_merge_list (Some b) ds) as Htb.
  rewrite Ha in Hta. rewrite Hb in Htb. rewrite Ha, Hb. cbn in *.
  rewrite Hta, Htb. rewrite gathered_snoc in Heq.
  rewrite <- !(assoc_L (∪)) in Heq. by rewrite Heq.
Qed.

Lemma union_absorb (X Y O : Translations) :
  dom X ⊆ dom Y → Y ∪ (X ∪ O) = Y ∪ O.
Proof.
  intros Hsub. apply map_eq. intros i. rewrite !lookup_union.
  destruct (Y !! i) as [y|] eqn:HY; [by rewrite !union_Some_l|].
  assert (X !! i = None) as ->.
  { apply not_elem_of_dom. intros Hi. apply Hsub in Hi.
    apply elem_of_dom in Hi. rewrite HY in Hi. by destruct Hi. }
  by destruct (O !! i).
Qed.

Lemma dom_gathered_from ds1 ds2 (u1 u2 : Translations) :
  Forall2 (fun d1 d2 => dom (tr_of d1) ⊆ dom (tr_of d2)) ds1 ds2 →
  dom u1 ⊆ dom u2 →
  dom (foldl (fun u d => tr_of d ∪ u) u1 ds1)
    ⊆ dom (foldl (fun u d => tr_of d ∪ u) u2 ds2).
Proof.
  intros H. revert u1 u2.
  induction H as [|d1 d2 r1 r2 Hd Hr IH]; intros u1 u2 Hu; [done|].
  cbn [foldl]. apply IH. rewrite !dom_union_L. by apply union_mono.
Qed.

Lemma dom_gathered_mono ds1 ds2 :
  Forall2 (fun d1 d2 => dom (tr_of d1) ⊆ dom (tr_of d2)) ds1 ds2 →
  dom (gathered ds1) ⊆ dom (gathered ds2).
Proof. intros H. by apply dom_gathered_from. Qed.

Lemma dom_gathered_app ds1 ds2 :
  dom (gathered ds1) ⊆ dom (gathered (ds1 ++ ds2)).
Proof.
  induction ds2 as [|d ds2 IH] using rev_ind; [by rewrite app_nil_r|].
  rewrite app_assoc, gathered_snoc, dom_union_L. set_solver.
Qed.

(** [find] on a log that has grown at its end. *)
Lemma find_translation_app ts trl extra :
  WebSocketManager.find_translation ts (trl ++ extra)
  = match WebSocketManager.find_translation ts trl with
    | Some m => Some m
    | None => WebSocketManager.find_translation ts extra
    end.
Proof.
  unfold WebSocketManager.find_translation.
  induction trl as [|[t m] trl IH]; [done|]. cbn.
  by destruct (JsNumber.strict_eq t ts).
Qed.

Lemma or_else_truthy (u : option string) (fallback : string) :
  truthy_string fallback = true → truthy_string (or_else u fallback) = true.
Proof.
  intros H. destruct u as [v|]; cbn; [|done].
  by destruct (truthy_string v) eqn:Hv.
Qed.

Lemma entry_key_truthy e : truthy_string (entry_key e) = true.
Proof. by apply or_else_truthy. Qed.

Lemma finalized_ids_truthy trl (log : list (number * TranscriptionData.t)) :
  Forall (fun d => truthy_string (TranscriptSegment.id d) = true)
         (map (WebSocketManager.finalized_segment trl) log).
Proof.
  apply Forall_forall. intros d Hd. apply list_elem_of_fmap in Hd.
  destruct Hd as (e & -> & _). apply entry_key_truthy.
Qed.

Lemma hits_finalized k trl (log : list (number * TranscriptionData.t)) :
  hits k (map (WebSocketManager.finalized_segment trl) log)
  = map (WebSocketManager.finalized_segment trl)
        (filter (fun e => k = entry_key e) log).
Proof.
  unfold hits. induction log as [|e log IH]; [done|]. cbn [map].
  destruct (decide (k = entry_key e)) as [Heq|Hne].
  - rewrite !filter_cons_True by done. cbn [map]. by rewrite IH.
  - rewrite !filter_cons_False by done. done.
Qed.

Lemma finalized_dom_mono trl extra (es : list (number * TranscriptionData.t)) :
  Forall2 (fun d1 d2 => dom (tr_of d1) ⊆ dom (tr_of d2))
    (map (WebSocketManager.finalized_segment trl) es)
    (map (WebSocketManager.finalized_segment (trl ++ extra)) es).
Proof.
  induction es as [|e es IH]; cbn [map]; constructor; [|done].
  unfold tr_of. cbn. rewrite find_translation_app.
  by destruct (WebSocketManager.find_translation e.1 trl).
Qed.

End KeyLemmas.

(** ** Order of a transcript and of its translation *)

Section Reordering.

Implicit Types (s : gmap string TranscriptSegment.t) (o : option TranscriptSegment.t).
Implicit Types (trl : list (number * Translations)).
Implicit Types (log new : list (number * TranscriptionData.t)).

Lemma at_most_one_at_filter (T : number) new (P : number * TranscriptionData.t → Prop)
    `{!∀ e, Decision (P e)} :
  at_most_one_at T new → at_most_one_at T (filter P new).
Proof.
  intros [->|(e & -> & He)]; [by left|].
  destruct (decide (P e)).
  - rewrite filter_cons_True by done. right. by exists e.
  - rewrite filter_cons_False by done. by left.
Qed.

(** One key of the store: writing the log with the old translations and
    then with the new ones gives what writing the old log and then the new
    log, both with the new translations, gives. *)
Lemma merge_key_reorder o log new trl (T : number) (tm : Translations) :
  at_most_one_at T new →
  merge_list
    (merge_list o (map (WebSocketManager.finalized_segment trl) (log ++ new)))
    (map (WebSocketManager.finalized_segment (trl ++ [(T, tm)])) (log ++ new))
  = merge_list
      (merge_list o (map (WebSocketManager.finalized_segment (trl ++ [(T, tm)])) log))
      (map (WebSocketManager.finalized_segment (trl ++ [(T, tm)])) (log ++ new)).
Proof.
  intros Hnew.
  set (old := WebSocketManager.finalized_segment trl).
  set (upd := WebSocketManager.finalized_segment (trl ++ [(T, tm)])).
  destruct (decide (log ++ new = [])) as [Hnil|Hcons].
  { apply app_eq_nil in Hnil as [-> ->]. done. }
  assert (Hfull : map upd (log ++ new) ≠ []).
  { intros H. apply Hcons. by apply fmap_nil_inv in H. }
  destruct (merge_list_is_Some o (map old (log ++ new))) as [a Ha].
  { right. intros H. apply Hcons. by apply fmap_nil_inv in H. }
  assert (Hdom_a : dom (gathered (map old (log ++ new)))
                   ⊆ dom (gathered (map upd (log ++ new)))).
  { apply dom_gathered_mono, finalized_dom_mono. }
  assert (Hdom_b : dom (gathered (map upd log))
                   ⊆ dom (gathered (map upd (log ++ new)))).
  { rewrite map_app. apply dom_gathered_app. }
  pose proof (tr_opt_merge_list o (map old (log ++ new))) as Hta.
  rewrite Ha in Hta. cbn in Hta.
  destruct (merge_list o (map upd log)) as [b|] eqn:Hb.
  - (* both intermediate stores hold an entry *)
    rewrite Ha. apply merge_list_absorb; [done|].
    pose proof (tr_opt_merge_list o (map upd log)) as Htb.
    rewrite Hb in Htb. cbn in Htb.
    rewrite Hta, Htb. by rewrite !union_absorb.
  - (* the key is new and written by the new entry only *)
    assert (o = None ∧ log = []) as [-> ->].
    { destruct o as [e0|].
      - destruct (merge_list_is_Some (Some e0) (map upd log)) as [? H];
          [by left; eauto|congruence].
      - split; [done|]. destruct log as [|e log]; [done|].
        destruct (merge_list_is_Some None (map upd (e :: log))) as [? H];
          [by right|congruence]. }
    destruct Hnew as [->|(e & -> & He)]; [done|].
    subst old upd. cbn [app map merge_list foldl merge_into]. f_equal.
    unfold WebSocketManager.finalized_segment, TranscriptSegment.with_translations,
      tr_of.
    cbn [TranscriptSegment.id TranscriptSegment.text TranscriptSegment.timestamp
         TranscriptSegment.name TranscriptSegment.completed
         TranscriptSegment.language TranscriptSegment.translations].
    rewrite find_translation_app.
    destruct (WebSocketManager.find_translation e.1 trl) as [m|]; cbn [default].
    + by rewrite (idemp_L (∪)).
    + unfold WebSocketManager.find_translation. cbn. rewrite He. cbn.
      by rewrite (right_id_L ∅ (∪)).
Qed.

(** The same for the whole store. *)
Lemma store_reorder s log new trl (T : number) (tm : Translations) :
  at_most_one_at T new →
  store_put_all
    (store_put_all s (map (WebSocketManager.finalized_segment trl) (log ++ new)))
    (map (WebSocketManager.finalized_segment (trl ++ [(T, tm)])) (log ++ new))
  = store_put_all
      (store_put_all s (map (WebSocketManager.finalized_segment (trl ++ [(T, tm)])) log))
      (map (WebSocketManager.finalized_segment (trl ++ [(T, tm)])) (log ++ new)).
Proof.
  intros Hnew. apply map_eq. intros k.
  rewrite !store_put_all_lookup by apply finalized_ids_truthy.
  rewrite !hits_finalized, !filter_app.
  apply merge_key_reorder. by apply at_most_one_at_filter.
Qed.

End Reordering.

Lemma handleMessage_transcript_event
    (now : Z) (segments : list RecentSegment.t) (m : WebSocketManager.t) :
  WebSocketManager.handleMessage now (transcript_event segments) m
  = WebSocketManager.processSegments now Absent (Segments segments) None []
      (WebSocketManager.set_lastResponseReceived now m).
Proof. reflexivity. Qed.

Lemma handleMessage_translation_event
    (now : Z) (entries : list RecentTranslation.t) (m : WebSocketManager.t) :
  WebSocketManager.handleMessage now (translation_event entries) m
  = WebSocketManager.processSegments now (Segments entries) (Segments []) None []
      (WebSocketManager.set_lastResponseReceived now m).
Proof. reflexivity. Qed.

Lemma after_transcript_event (now : Z) (segment : RecentSegment.t) (m : WebSocketManager.t) :
  let r := WebSocketManager.handleMessage now (transcript_event [segment]) m in
  WebSocketManager.transcript r.1 = WebSocketManager.transcript m ++ new_entry m segment
  ∧ WebSocketManager.multilingualTranscript r.1 = WebSocketManager.multilingualTranscript m
  ∧ WebSocketManager._processedTranslationIds r.1
    = WebSocketManager._processedTranslationIds m
  ∧ transcriptions r.2
    = map (WebSocketManager.finalized_segment (WebSocketManager.multilingualTranscript m))
          (WebSocketManager.transcript m ++ new_entry m segment).
Proof.
  cbn zeta. rewrite handleMessage_transcript_event, processSegments_emits.
  unfold WebSocketManager.processSegments, new_entry. cbn.
  unfold WebSocketManager.record_segment. cbn.
  destruct (decide _); cbn; rewrite ?app_nil_r; done.
Qed.

Lemma after_translation_event (now : Z) (entry : RecentTranslation.t) (m : WebSocketManager.t) :
  let r := WebSocketManager.handleMessage now (translation_event [entry]) m in
  WebSocketManager.transcript r.1 = WebSocketManager.transcript m
  ∧ WebSocketManager.multilingualTranscript r.1
    = WebSocketManager.multilingualTranscript m ++ new_translation m entry
  ∧ WebSocketManager._processedTranscriptIds r.1
    = WebSocketManager._processedTranscriptIds m
  ∧ transcriptions r.2
    = map (WebSocketManager.finalized_segment
             (WebSocketManager.multilingualTranscript m ++ new_translation m entry))
          (WebSocketManager.transcript m).
Proof.
  cbn zeta. rewrite handleMessage_translation_event, processSegments_emits.
  unfold WebSocketManager.processSegments, new_translation. cbn.
  unfold WebSocketManager.record_translation. cbn.
  destruct (decide _); cbn; rewrite ?app_nil_r; done.
Qed.

(** From any state of the session: a translation entry that is new to the
    manager and a segment with the same timestamp can be delivered in either
    order. *)
Lemma reorder_from_any_state
    (Number : string → option Z) (url_accepted : bool) (render : Room.State)
    (x : Session.t) (segment : RecentSegment.t) (entry : RecentTranslation.t)
    (t1 t2 t3 t4 : Z) :
  JsNumber.strict_eq (RecentTranslation.timestamp entry)
                     (RecentSegment.timestamp segment) = true →
  RecentTranslation.id entry
    ∉ WebSocketManager._processedTranslationIds (Session.ws x) →
  Room.transcriptMap (Session.page
    (Session.run Number url_accepted render x
       [Session.MessageReceived t1 (transcript_event [segment]);
        Session.MessageReceived t2 (translation_event [entry])]))
  = Room.transcriptMap (Session.page
      (Session.run Number url_accepted render x
         [Session.MessageReceived t3 (translation_event [entry]);
          Session.MessageReceived t4 (transcript_event [segment])])).
Proof.
  intros Hts Hnew. cbn [Session.run foldl].
  rewrite !step_message_transcriptMap, !step_message_ws.
  set (m := Session.ws x).
  destruct (after_transcript_event t1 segment m) as (HAt & HAm & HAi & HAe).
  destruct (after_translation_event t3 entry m) as (HBt & HBm & HBi & HBe).
  set (mA := (WebSocketManager.handleMessage t1 (transcript_event [segment]) m).1) in *.
  set (mB := (WebSocketManager.handleMessage t3 (translation_event [entry]) m).1) in *.
  destruct (after_translation_event t2 entry mA) as (_ & HABm & _ & HABe).
  destruct (after_transcript_event t4 segment mB) as (_ & _ & _ & HBAe).
  rewrite HAe, HABe, HBe, HBAe. rewrite HAt, HAm, HBt, HBm.
  assert (Hent : ∀ m', WebSocketManager._processedTranslationIds m'
                       = WebSocketManager._processedTranslationIds m →
            new_translation m' entry
            = [(RecentTranslation.timestamp entry, RecentTranslation.translations entry)]).
  { intros m' Hm'. unfold new_translation. rewrite Hm'. by rewrite decide_False. }
  rewrite (Hent mA HAi), (Hent m eq_refl).
  assert (new_entry mB segment = new_entry m segment) as ->.
  { unfold new_entry. by rewrite HBi. }
  apply store_reorder. unfold new_entry.
  destruct (decide _); [by left|]. right. eexists. split; [done|]. exact Hts.
Qed.

Lemma mount_is_fresh
    (Number : string → option Z) (url_accepted : bool)
    (cfg : ServerConfig.t) (random_uid : string)
    (stored : option string) (microphone_ok : bool) :
  let x := Session.mount Number url_accepted cfg random_uid stored microphone_ok in
  WebSocketManager.transcript (Session.ws x) = []
  ∧ WebSocketManager.multilingualTranscript (Session.ws x) = []
  ∧ WebSocketManager._processedTranscriptIds (Session.ws x) = ∅
  ∧ WebSocketManager._processedTranslationIds (Session.ws x) = ∅
  ∧ Room.transcriptMap (Session.page x) = ∅.
Proof. by destruct url_accepted, microphone_ok. Qed.

(** C3. Take a finalized segment and a translation entry whose timestamps
    are equal. On a freshly mounted page, delivering the transcript event
    and then the translation event leaves the keyed transcript store, and so
    the merged entry of the segment, exactly as delivering them the other
    way round does. The same holds from any state of the session in which
    the translation entry is new to the manager. *)
Theorem translation_order_independent
    (Number : string → option Z) (url_accepted : bool)
    (segment : RecentSegment.t) (entry : RecentTranslation.t) (t1 t2 t3 t4 : Z) :
  JsNumber.strict_eq (RecentTranslation.timestamp entry)
                     (RecentSegment.timestamp segment) = true →
  let transcript_first :=
    [Session.MessageReceived t1 (transcript_event [segment]);
     Session.MessageReceived t2 (translation_event [entry])] in
  let translation_first :=
    [Session.MessageReceived t3 (translation_event [entry]);
     Session.MessageReceived t4 (transcript_event [segment])] in
  (∀ (cfg : ServerConfig.t) (session_uid : string) (stored : option string)
     (microphone_ok : bool),
     let x := Session.mount Number url_accepted cfg session_uid stored microphone_ok in
     let run := Session.run Number url_accepted (Session.mounted_render stored) x in
     Room.transcriptMap (Session.page (run transcript_first))
     = Room.transcriptMap (Session.page (run translation_first)))
  ∧ (∀ (render : Room.State) (x : Session.t),
       RecentTranslation.id entry
         ∉ WebSocketManager._processedTranslationIds (Session.ws x) →
       Room.transcriptMap
         (Session.page (Session.run Number url_accepted render x transcript_first))
       = Room.transcriptMap
           (Session.page (Session.run Number url_accepted render x translation_first))).
Proof.
  intros Hts transcript_first translation_first. split.
  - intros cfg session_uid stored microphone_ok x run. subst run.
    apply reorder_from_any_state; [exact Hts|].
    destruct (mount_is_fresh Number url_accepted cfg session_uid stored microphone_ok)
      as (_ & _ & _ & Hseen & _).
    fold x in Hseen. rewrite Hseen. apply not_elem_of_empty.
  - intros render x Hnew. by apply reorder_from_any_state.
Qed.

Lemma translation_order_independent_witness :
  let segment := RecentSegment.mk 5 (Dec 120 1)
                   (TranscriptionData.mk None "hello" None false None) in
  let entry := RecentTranslation.mk 9 (Dec 12 0) {[ "es" := "hola" ]} in
  Room.transcriptMap (Session.page
    (example_run example_session
       [Session.MessageReceived 1 (transcript_event [segment]);
        Session.MessageReceived 2 (translation_event [entry])]))
  = Room.transcriptMap (Session.page
      (example_run example_session
         [Session.MessageReceived 3 (translation_event [entry]);
          Session.MessageReceived 4 (transcript_event [segment])])).
Proof.
  intros segment entry.
  assert (Hts : JsNumber.strict_eq (RecentTranslation.timestamp entry)
                                   (RecentSegment.timestamp segment) = true)
    by reflexivity.
  exact (proj1 (translation_order_independent DecimalId.Number true
                  segment entry 1 2 3 4 Hts)
               example_config "abc" None true).
Defined.

(** ** Scenario B: a segment and, later, its translation *)

(** C1 (amended). On a freshly mounted page, a transcript event with the
    finalized segment (id 5, timestamp 12.0, text "hello") followed by a
    message with the translation entry (id 9, timestamp 12.0, es: "hola")
    leaves exactly one entry in the store. Its key is the id the engine
    emits for the segment, namely the [uid] of the segment data when that is
    non-empty and "transcript-12" otherwise; its text is "hello", its
    translations are es: "hola" and its completed flag is true. *)
Theorem scenario_b_entry
    (Number : string → option Z) (url_accepted : bool)
    (cfg : ServerConfig.t) (session_uid : string)
    (stored : option string) (microphone_ok : bool) (t1 t2 : Z)
    (data_uid language client_name : option string) (completed : bool) :
  let data := TranscriptionData.mk data_uid "hello" language completed client_name in
  let segment := RecentSegment.mk 5 (JsNumber.of_Z 12) data in
  let entry := RecentTranslation.mk 9 (JsNumber.of_Z 12) {[ "es" := "hola" ]} in
  let x :=
    Session.run Number url_accepted (Session.mounted_render stored)
      (Session.mount Number url_accepted cfg session_uid stored microphone_ok)
      [Session.MessageReceived t1 (transcript_event [segment]);
       Session.MessageReceived t2 (translation_event [entry])] in
  Room.transcriptMap (Session.page x)
  = {[ or_else data_uid "transcript-12" :=
         TranscriptSegment.mk (or_else data_uid "transcript-12") "hello"
           (JsNumber.of_Z 12) (or_else client_name "Unknown") (Some true)
           language (Some {[ "es" := "hola" ]}) ]}.
Proof.
  intros data segment entry x. subst x. cbn [Session.run foldl].
  rewrite !step_message_transcriptMap, !step_message_ws.
  set (x0 := Session.mount _ _ _ _ _ _).
  destruct (mount_is_fresh Number url_accepted cfg session_uid stored microphone_ok)
    as (Hlog & Htrl & Hseen & Hseen' & Hmap).
  fold x0 in Hlog, Htrl, Hseen, Hseen', Hmap.
  destruct (after_transcript_event t1 segment (Session.ws x0)) as (HAt & HAm & HAi & HAe).
  set (mA := (WebSocketManager.handleMessage t1 (transcript_event [segment])
                (Session.ws x0)).1) in *.
  destruct (after_translation_event t2 entry mA) as (_ & _ & _ & HBe).
  rewrite HAe, HBe, HAt, HAm, Hmap, Hlog, Htrl.
  unfold new_entry, new_translation. rewrite HAi, Hseen, Hseen'.
  rewrite !decide_False by set_solver.
  assert (Hkey : truthy_string (or_else data_uid "transcript-12") = true)
    by by apply or_else_truthy.
  cbn -[JsNumber.to_string]. unfold store_put, Room.updateTranscriptMap.
  cbn -[JsNumber.to_string].
  change ("transcript-" +:+ JsNumber.to_string (JsNumber.of_Z 12))
    with "transcript-12".
  rewrite Hkey, lookup_empty, lookup_insert_eq, insert_insert_eq.
  unfold TranscriptSegment.with_translations. cbn.
  rewrite orb_true_r, (right_id_L ∅ (∪)). done.
Qed.

(** C1, as stated, fails: with the segment of the scenario (no [uid] in its
    data) the store has no entry under the server segment id "5"; the entry
    is under "transcript-12". *)
Lemma scenario_b_not_keyed_by_segment_id :
  let segment := RecentSegment.mk 5 (JsNumber.of_Z 12)
                   (TranscriptionData.mk None "hello" None false None) in
  let entry := RecentTranslation.mk 9 (JsNumber.of_Z 12) {[ "es" := "hola" ]} in
  let store := Room.transcriptMap (Session.page
    (example_run example_session
       [Session.MessageReceived 1 (transcript_event [segment]);
        Session.MessageReceived 2 (translation_event [entry])])) in
  store !! "5" = None
  ∧ TranscriptSegment.text <$> store !! "transcript-12" = Some "hello".
Proof. vm_compute. split; reflexivity. Qed.

(** ** The live segment *)

Lemma finalized_not_live trl (log : list (number * TranscriptionData.t)) :
  filter (fun d => TranscriptSegment.completed d = Some false)
         (map (WebSocketManager.finalized_segment trl) log) = [].
Proof.
  induction log as [|e log IH]; [done|]. cbn [map].
  rewrite filter_cons_False; [done|].
  cbn. rewrite orb_true_r. discriminate.
Qed.

Lemma in_progress_is_live (last : option (list (number * TranscriptionData.t))) :
  filter (fun d => TranscriptSegment.completed d = Some false)
         (WebSocketManager.in_progress_segment last)
  = WebSocketManager.in_progress_segment last.
Proof.
  destruct last as [[|[ts data] rest]|]; cbn; try done.
  destruct (truthy_string _); [|done].
  by rewrite filter_cons_True.
Qed.

Lemma store_put_keeps_keys (s : gmap string TranscriptSegment.t) (d : TranscriptSegment.t) :
  dom s ⊆ dom (store_put s d).
Proof.
  unfold store_put, Room.updateTranscriptMap.
  destruct (truthy_string _); [|done].
  destruct (s !! TranscriptSegment.id d); rewrite dom_insert_L; set_solver.
Qed.

Lemma store_put_all_keeps_keys
    (ds : list TranscriptSegment.t) (s : gmap string TranscriptSegment.t) :
  dom s ⊆ dom (store_put_all s ds).
Proof.
  revert s. induction ds as [|d ds IH]; intros s; [done|].
  cbn. etrans; [apply (store_put_keeps_keys s d)|apply IH].
Qed.

Lemma perform_all_keeps_keys
    (Number : string → option Z) (render : Room.State)
    (actions : list Action) (x : Session.t) :
  dom (Room.transcriptMap (Session.page x))
    ⊆ dom (Room.transcriptMap
             (Session.page (Session.perform_all Number render x actions))).
Proof. rewrite perform_all_transcriptMap. apply store_put_all_keeps_keys. Qed.

Lemma connect_keeps_keys
    (Number : string → option Z) (url_accepted : bool) (render : Room.State)
    (x : Session.t) :
  dom (Room.transcriptMap (Session.page x))
    ⊆ dom (Room.transcriptMap
             (Session.page (Session.connect Number url_accepted render x))).
Proof.
  unfold Session.connect.
  destruct (WebSocketManager.connect url_accepted (Session.ws x)) as [[r m] actions].
  apply (perform_all_keeps_keys Number render actions (Session.set_ws m x)).
Qed.

(** No event of the loop removes a key from the store. *)
Lemma step_keeps_keys
    (Number : string → option Z) (url_accepted : bool) (render : Room.State)
    (x : Session.t) (e : Session.Event) :
  dom (Room.transcriptMap (Session.page x))
    ⊆ dom (Room.transcriptMap
             (Session.page (Session.step Number url_accepted render x e))).
Proof.
  destruct e; cbn [Session.step].
  - apply (perform_all_keeps_keys Number render _ (Session.set_ws _ x)).
  - destruct (WebSocketManager.handleError (Session.ws x)) as [m actions].
    apply (perform_all_keeps_keys Number render actions (Session.set_ws m x)).
  - destruct (WebSocketManager.handleClose _) as [m actions].
    apply (perform_all_keeps_keys Number render actions (Session.set_ws m x)).
  - destruct (WebSocketManager.handleMessage now data (Session.ws x)) as [m actions].
    apply (perform_all_keeps_keys Number render actions (Session.set_ws m x)).
  - destruct (AudioManager.handleAudioProcess inputData (Session.audio x)) as [a [frame|]];
      [|done].
    destruct (WebSocketManager.sendAudio frame (Session.ws x)) as [[r m] actions].
    apply (perform_all_keeps_keys Number render actions
             (Session.set_ws m (Session.set_audio a x))).
  - destruct (Session.timers x) as [|n]; [done|].
    destruct (Room.reconnect_due render); [|done].
    apply (connect_keeps_keys Number url_accepted render (Session.set_timers n x)).
  - destruct (bool_decide _); [|done].
    unfold Room.toggleRecording.
    destruct (Room.isRecording (Session.page x)); [done|].
    destruct (AudioManager.start (Session.audio x)) as [[] a]; done.
  - destruct (_ && _); [|done]. apply connect_keeps_keys.
  - destruct (WebSocketManager.disconnect (Session.ws x)) as [m actions].
    apply (perform_all_keeps_keys Number render actions
             (Session.set_ws m (Session.set_audio _ x))).
Qed.

(** C2 (amended). The engine holds one live segment at a time: a transcript
    event replaces the live-segment pointer by its own [last_segments] and
    emits at most one in-progress segment, the one that pointer designates.
    The keyed store never loses a key, whatever the event, so the entries
    written for earlier in-progress segments stay in it: after two updates
    with timestamps 3.0 and 3.5 its keys are "in-progress-3" and
    "in-progress-3.5". *)
Theorem one_live_pointer_store_keeps_entries
    (Number : string → option Z) (url_accepted : bool) (render : Room.State)
    (x : Session.t) (e : Session.Event)
    (now : Z) (multilingual : Payload RecentTranslation.t)
    (transcript_ : Payload RecentSegment.t)
    (last : option (list (number * TranscriptionData.t)))
    (languages : list string) (m : WebSocketManager.t) :
  let r := WebSocketManager.processSegments now multilingual transcript_ last languages m in
  WebSocketManager.lastSegment r.1 = last
  ∧ live_emitted r.2 = WebSocketManager.in_progress_segment last
  ∧ (length (live_emitted r.2) ≤ 1)%nat
  ∧ dom (Room.transcriptMap (Session.page x))
      ⊆ dom (Room.transcriptMap
               (Session.page (Session.step Number url_accepted render x e)))
  ∧ dom (Room.transcriptMap (Session.page
           (example_run example_session
              [Session.MessageReceived 1 live_3_0;
               Session.MessageReceived 2 live_3_5])))
    = {[ "in-progress-3"; "in-progress-3.5" ]}.
Proof.
  intros r.
  assert (Hlive : live_emitted r.2 = WebSocketManager.in_progress_segment last).
  { unfold live_emitted. subst r. rewrite processSegments_emits.
    by rewrite filter_app, finalized_not_live, in_progress_is_live. }
  split; [by destruct multilingual, transcript_|].
  split; [exact Hlive|]. split; [|split].
  - rewrite Hlive, in_progress_count. destruct (live_text last); lia.
  - apply step_keeps_keys.
  - by vm_compute.
Qed.

(** C2, as stated, fails: after two [last_segments] updates with timestamps
    3.0 and 3.5 the store holds two in-progress entries, the one of the
    first update under "in-progress-3" next to "in-progress-3.5". *)
Lemma two_live_entries_in_store :
  let store := Room.transcriptMap (Session.page
    (example_run example_session
       [Session.MessageReceived 1 live_3_0; Session.MessageReceived 2 live_3_5])) in
  TranscriptSegment.text <$> store !! "in-progress-3" = Some "hel"
  ∧ TranscriptSegment.completed <$> store !! "in-progress-3" = Some (Some false)
  ∧ TranscriptSegment.text <$> store !! "in-progress-3.5" = Some "hello"
  ∧ size (filter (fun kv => TranscriptSegment.completed kv.2 = Some false) store) = 2.
Proof. vm_compute. repeat split; reflexivity. Qed.

(** ** Retry policy *)

(** C5 (amended). On entering [error] the status callback adds one to the
    attempt count it reads and stores the result; when that is below 3 it
    schedules exactly one reconnection, 3000 ms later, and announces a retry;
    when it is 3 or more it schedules none and sets the terminal "Failed to
    connect" error. Reaching [connected] sets the count to zero and clears
    the error without scheduling anything. A manual [connect()], from the
    retry button or otherwise, leaves the count as it is (the URL being well
    formed). *)
Theorem retry_policy_of_status_callback
    (Number : string → option Z) (render s : Room.State) (x : Session.t) :
  let failed := Room.onStatusChange render Error s in
  let attempts := Room.connectionAttempts render + 1 in
  Room.connectionAttempts failed.1 = attempts
  ∧ timeouts failed.2 = (if (3 <=? attempts)%nat then [] else [3000%Z])
  ∧ Room.connectionError failed.1
    = Some (if (3 <=? attempts)%nat then Room.failed_message attempts
            else Room.retrying_message attempts)
  ∧ Room.connectionAttempts (Room.onStatusChange render Connected s).1 = 0
  ∧ Room.connectionError (Room.onStatusChange render Connected s).1 = None
  ∧ timeouts (Room.onStatusChange render Connected s).2 = []
  ∧ Room.connectionAttempts (Session.page (Session.connect Number true render x))
    = Room.connectionAttempts (Session.page x)
  ∧ Room.connectionAttempts
      (Session.page (Session.step Number true render x Session.ClickRetry))
    = Room.connectionAttempts (Session.page x).
Proof.
  cbn zeta.
  assert (Hconnect :
    Room.connectionAttempts (Session.page (Session.connect Number true render x))
    = Room.connectionAttempts (Session.page x)).
  { unfold Session.connect. cbn. unfold Room.onStatusChange. by cbn. }
  unfold Room.onStatusChange.
  repeat split;
    first
      [ exact Hconnect
      | by (cbn [Session.step]; destruct (_ && _); [exact Hconnect|])
      | destruct (Room.isRecording render); cbn -[Nat.leb];
        try destruct (_ <=? _)%nat; reflexivity ].
Qed.

(** C5, as stated, fails. On the mounted page the callback reads the attempt
    count of the render it was created in, which is 0: after the third
    consecutive failure the count is 1, the message still announces a
    retry and a further reconnection is pending. And a manual [connect()]
    after a failure does not reset the count. *)
Lemma retries_not_bounded_and_manual_connect_keeps_count :
  let x := example_run example_session three_failures in
  let y := example_run example_session one_failure in
  Room.connectionAttempts (Session.page x) = 1
  ∧ Room.connectionError (Session.page x) = Some (Room.retrying_message 1)
  ∧ Session.timers x = 1
  ∧ Room.connectionAttempts (Session.page y) = 1
  ∧ Room.connectionAttempts
      (Session.page (Session.connect DecimalId.Number true
                       (Session.mounted_render None) y)) = 1.
Proof. vm_compute. repeat split; reflexivity. Qed.

(** ** Audio capture and the connection status *)

(** C9 at the failing input. The microphone is on and the server reports an
    error over the socket, which stays open. The installed callback reads
    [isRecording] of the render it was created in (false) and does not stop
    the capture: the page and the audio manager still record, and the next
    captured frame is sent over the socket although the status is [error].
    The same callback, had it read the current [isRecording], would have
    stopped the capture. *)
Theorem capture_survives_error_status :
  let before := example_run example_session recording in
  let x := example_run before [Session.MessageReceived 2 server_error] in
  let y := example_run x [Session.AudioProcess frame] in
  Room.status (Session.page before) = Connected
  ∧ AudioManager.isRecording (Session.audio before) = true
  ∧ Room.status (Session.page x) = Error
  ∧ Room.isRecording (Session.page x) = true
  ∧ AudioManager.isRecording (Session.audio x) = true
  ∧ Room.status (Session.page y) = Error
  ∧ Session.wire y = Session.wire x ++ [AudioData frame]
  ∧ (Room.onStatusChange (Session.mounted_render None) Error (Session.page before)).2
    = [Room.SetTimeout 3000]
  ∧ (Room.onStatusChange (Session.page before) Error (Session.page before)).2
    = [Room.AudioStop; Room.SetTimeout 3000].
Proof. vm_compute. repeat split; reflexivity. Qed.

(** ** The global advancing identifier *)

Section GlobalId.

Variable Number : string → option Z.

Lemma id_is_newer_iff (current : option string) (id : string) :
  Room.id_is_newer Number current id = true
  ↔ truthy_opt current = false
    ∨ ∃ incoming known,
        Number id = Some incoming
        ∧ Number (default "" current) = Some known
        ∧ (known < incoming)%Z.
Proof.
  unfold Room.id_is_newer. rewrite orb_true_iff, negb_true_iff.
  split.
  - intros [H|H]; [by left|right].
    destruct (Number id) as [a|], (Number (default "" current)) as [b|]; try done.
    exists a, b. repeat split. by apply Z.ltb_lt.
  - intros [H|(a & b & -> & -> & Hlt)]; [by left|right]. by apply Z.ltb_lt.
Qed.

(** From a set, numeric pointer, numeric ids lead to the largest value. *)
Lemma advance_numeric (ids : list string) (g : string) (b : Z) :
  truthy_string g = true →
  Number g = Some b →
  Forall (fun id => truthy_string id = true ∧ is_Some (Number id)) ids →
  ∃ g' b',
    foldl (advance Number) (Some g) ids = Some g'
    ∧ g' ∈ g :: ids
    ∧ Number g' = Some b'
    ∧ (b ≤ b')%Z
    ∧ Forall (fun id => ∃ a, Number id = Some a ∧ (a ≤ b')%Z) ids.
Proof.
  intros Hg Hb Hall. revert g b Hg Hb.
  induction Hall as [|id ids [Hid [a Ha]] Hids IH]; intros g b Hg Hb.
  - exists g, b. cbn. repeat split; first [done | lia | by left].
  - assert (Hstep : advance Number (Some g) id
                    = if (b <? a)%Z then Some id else Some g).
    { unfold advance, Room.id_is_newer. cbn.
      by rewrite Hg, Ha, Hb. }
    cbn [foldl]. rewrite Hstep.
    destruct (b <? a)%Z eqn:Hlt.
    + apply Z.ltb_lt in Hlt.
      destruct (IH id a Hid Ha) as (g' & b' & Hfold & Hin & Hnum & Hle & Hmax).
      exists g', b'. repeat split; [done| |done|lia|].
      { apply elem_of_cons. by right. }
      constructor; [|done]. exists a. split; [done|lia].
    + apply Z.ltb_ge in Hlt.
      destruct (IH g b Hg Hb) as (g' & b' & Hfold & Hin & Hnum & Hle & Hmax).
      exists g', b'. repeat split; [done| |done|done|].
      { apply elem_of_cons in Hin as [->|Hin]; [by left|].
        apply elem_of_cons. right. apply elem_of_cons. by right. }
      constructor; [|done]. exists a. split; [done|lia].
Qed.

End GlobalId.

(** C6 (amended). The transcription callback replaces the identifier exactly
    when the value it reads is unset (null or empty), or both the incoming
    id and that value convert to numbers and the incoming one is greater. An
    id that does not convert to a number replaces only an unset pointer.
    Consequently, when every call reads the pointer left by the previous
    one, non-empty numeric ids delivered in any order leave the id of
    greatest numeric value in the pointer. *)
Theorem global_id_update_rule
    (Number : string → option Z) (render s : Room.State)
    (data : TranscriptSegment.t) (ids : list string) :
  Forall (fun id => truthy_string id = true ∧ is_Some (Number id)) ids →
  ids ≠ [] →
  Room.globalTranscriptId (Room.onTranscription Number render data s)
  = (if truthy_string (TranscriptSegment.id data)
        && Room.id_is_newer Number (Room.globalTranscriptId render)
                            (TranscriptSegment.id data)
     then Some (TranscriptSegment.id data)
     else Room.globalTranscriptId s)
  ∧ (Room.id_is_newer Number (Room.globalTranscriptId render)
                      (TranscriptSegment.id data) = true
     ↔ truthy_opt (Room.globalTranscriptId render) = false
       ∨ ∃ incoming known,
           Number (TranscriptSegment.id data) = Some incoming
           ∧ Number (default "" (Room.globalTranscriptId render)) = Some known
           ∧ (known < incoming)%Z)
  ∧ (Number (TranscriptSegment.id data) = None →
     Room.id_is_newer Number (Room.globalTranscriptId render)
                      (TranscriptSegment.id data)
     = negb (truthy_opt (Room.globalTranscriptId render)))
  ∧ ∃ g b,
      foldl (advance Number) None ids = Some g
      ∧ g ∈ ids
      ∧ Number g = Some b
      ∧ Forall (fun id => ∃ a, Number id = Some a ∧ (a ≤ b)%Z) ids.
Proof.
  intros Hall Hne. split; [|split; [|split]].
  - unfold Room.onTranscription.
    destruct (truthy_string _); [|done]. cbn [andb].
    by destruct (Room.id_is_newer _ _ _).
  - apply id_is_newer_iff.
  - intros Hnan. unfold Room.id_is_newer. rewrite Hnan. apply orb_false_r.
  - destruct ids as [|id ids]; [done|].
    apply Forall_cons in Hall as [[Hid [a Ha]] Hall].
    destruct (advance_numeric Number ids id a Hid Ha Hall)
      as (g & b & Hfold & Hin & Hnum & Hle & Hmax).
    exists g, b. repeat split; [exact Hfold|exact Hin|exact Hnum|].
    constructor; [|exact Hmax]. exists a. split; [exact Ha|exact Hle].
Qed.

Lemma global_id_update_rule_witness :
  let data := TranscriptSegment.mk "7" "seven" (JsNumber.of_Z 10) "Unknown"
                (Some true) None None in
  let s := Session.page example_session in
  Room.globalTranscriptId
    (Room.onTranscription DecimalId.Number (Session.mounted_render None) data s)
  = Some "7"
  ∧ ∃ g b,
      foldl (advance DecimalId.Number) None ["3"; "7"; "5"] = Some g
      ∧ g ∈ ["3"; "7"; "5"]
      ∧ DecimalId.Number g = Some b
      ∧ Forall (fun id => ∃ a, DecimalId.Number id = Some a ∧ (a ≤ b)%Z)
               ["3"; "7"; "5"].
Proof.
  intros data s.
  destruct (global_id_update_rule DecimalId.Number (Session.mounted_render None)
              s data ["3"; "7"; "5"]) as (H1 & _ & _ & H4).
  - repeat constructor; eexists; reflexivity.
  - discriminate.
  - split; [exact H1|exact H4].
Defined.

(** C6, as stated, fails. An id that is not numeric does not replace a set
    pointer. And on the mounted page the callback reads the pointer of the
    render it was created in, which is null, so every emitted id replaces
    the pointer: after the finalized segments emitted as "7" and then "5"
    the pointer is "5", not the maximum. *)
Lemma global_id_neither_always_newer_nor_maximum :
  DecimalId.Number "abc" = None
  ∧ Room.id_is_newer DecimalId.Number (Some "5") "abc" = false
  ∧ Room.globalTranscriptId (Session.page
      (example_run example_session
         [Session.MessageReceived 1 (transcript_event [segment_seven]);
          Session.MessageReceived 2 (transcript_event [segment_five])]))
    = Some "5".
Proof. vm_compute. repeat split; reflexivity. Qed.

(** * Further properties *)

(** ** Sorting *)

Section SortLemmas.

Context {A : Type} (le : A → A → bool).

Local Abbreviation R := (fun a b : A => le a b = true).

Lemma insert_Permutation (x : A) (l : list A) : JsOrder.insert le x l ≡ₚ x :: l.
Proof.
  induction l as [|y l IH]; [done|]. cbn.
  destruct (le x y); [done|]. rewrite IH. apply Permutation_swap.
Qed.

Lemma sort_cons (x : A) (l : list A) :
  JsOrder.sort le (x :: l) = JsOrder.insert le x (JsOrder.sort le l).
Proof. done. Qed.

Lemma sort_Permutation (l : list A) : JsOrder.sort le l ≡ₚ l.
Proof.
  induction l as [|x l IH]; [done|].
  by rewrite sort_cons, insert_Permutation, IH.
Qed.

Hypothesis le_total : ∀ a b, le a b = false → le b a = true.
Hypothesis le_trans : ∀ a b c, le a b = true → le b c = true → le a c = true.

Lemma insert_sorted (x : A) (l : list A) :
  StronglySorted R l → StronglySorted R (JsOrder.insert le x l).
Proof.
  induction 1 as [|y l Hl IH Hy]; cbn; [repeat constructor|].
  destruct (le x y) eqn:Hxy.
  - constructor; [by constructor|]. constructor; [done|].
    eapply Forall_impl; [exact Hy|]. intros z Hz. by eapply le_trans.
  - constructor; [done|]. rewrite insert_Permutation.
    constructor; [by apply le_total|done].
Qed.

Lemma sort_sorted (l : list A) : StronglySorted R (JsOrder.sort le l).
Proof.
  induction l as [|x l IH]; [constructor|].
  rewrite sort_cons. by apply insert_sorted.
Qed.

(** Sorting a list that is in order already gives the list back. *)
Lemma sort_of_sorted (l : list A) : StronglySorted R l → JsOrder.sort le l = l.
Proof.
  induction 1 as [|x l Hl IH Hx]; [done|]. rewrite sort_cons, IH.
  destruct Hx as [|y l Hxy _]; [done|]. cbn. by rewrite Hxy.
Qed.

End SortLemmas.

Lemma leb_total (a b : number) : JsOrder.leb a b = false → JsOrder.leb b a = true.
Proof. unfold JsOrder.leb. intros H. apply Z.leb_gt in H. apply Z.leb_le. lia. Qed.

Lemma leb_trans (a b c : number) :
  JsOrder.leb a b = true → JsOrder.leb b c = true → JsOrder.leb a c = true.
Proof.
  unfold JsOrder.leb. intros Hab Hbc.
  apply Z.leb_le in Hab, Hbc. apply Z.leb_le.
  destruct a as [ma sa], b as [mb sb], c as [mc sc]. cbn in *.
  assert (0 < 10 ^ Z.of_nat sa)%Z by (apply Z.pow_pos_nonneg; lia).
  assert (0 < 10 ^ Z.of_nat sb)%Z by (apply Z.pow_pos_nonneg; lia).
  assert (0 < 10 ^ Z.of_nat sc)%Z by (apply Z.pow_pos_nonneg; lia).
  set (A := (10 ^ Z.of_nat sa)%Z) in *.
  set (B := (10 ^ Z.of_nat sb)%Z) in *.
  set (C := (10 ^ Z.of_nat sc)%Z) in *.
  apply (Z.mul_le_mono_pos_r _ _ B); [done|].
  transitivity (mb * A * C)%Z; [nia|nia].
Qed.

Lemma by_timestamp_total (a b : TranscriptSegment.t) :
  RoomDerived.by_timestamp a b = false → RoomDerived.by_timestamp b a = true.
Proof. apply leb_total. Qed.

Lemma by_timestamp_trans (a b c : TranscriptSegment.t) :
  RoomDerived.by_timestamp a b = true → RoomDerived.by_timestamp b c = true →
  RoomDerived.by_timestamp a c = true.
Proof. apply leb_trans. Qed.

(** ** The ordered transcript *)

Lemma filter_all {A : Type} (P : A → Prop) `{!∀ x, Decision (P x)} (l : list A) :
  Forall P l → filter P l = l.
Proof.
  induction 1 as [|x l Hx Hl IH]; [done|].
  rewrite filter_cons_True by done. by rewrite IH.
Qed.

Lemma filter_keeps_Forall {A : Type} (P Q : A → Prop) `{!∀ x, Decision (P x)}
    (l : list A) :
  Forall Q l → Forall Q (filter P l).
Proof.
  intros HQ. apply Forall_forall. intros x Hx.
  apply list_elem_of_filter in Hx as [_ Hx].
  by eapply Forall_forall in HQ.
Qed.

Lemma filter_sorted {A : Type} (R : relation A) (P : A → Prop)
    `{!∀ x, Decision (P x)} (l : list A) :
  StronglySorted R l → StronglySorted R (filter P l).
Proof.
  induction 1 as [|x l Hl IH Hx]; [constructor|].
  destruct (decide (P x)).
  - rewrite filter_cons_True by done. constructor; [done|].
    by apply filter_keeps_Forall.
  - by rewrite filter_cons_False.
Qed.

Lemma transcripts_sorted_helper (values : list TranscriptSegment.t) :
  StronglySorted (fun a b => RoomDerived.by_timestamp a b = true)
                 (RoomDerived.transcripts values)
  ∧ Forall (fun t => RoomDerived.valid t = true) (RoomDerived.transcripts values).
Proof.
  split.
  - apply sort_sorted; [apply by_timestamp_total|apply by_timestamp_trans].
  - apply Forall_forall. intros t Ht.
    unfold RoomDerived.transcripts in Ht. rewrite sort_Permutation in Ht.
    by apply list_elem_of_filter in Ht as [? _].
Qed.

(** X1. The transcript shown by the page is made of exactly the entries of
    the store that have a timestamp and a text, each as often as the store
    enumerates it, in ascending order of timestamp; deriving it again from
    itself changes nothing. *)
Theorem transcripts_valid_sorted (values : list TranscriptSegment.t) :
  RoomDerived.transcripts values ≡ₚ filter (fun t => RoomDerived.valid t = true) values
  ∧ StronglySorted (fun a b => RoomDerived.by_timestamp a b = true)
                   (RoomDerived.transcripts values)
  ∧ (∀ t, t ∈ RoomDerived.transcripts values ↔ t ∈ values ∧ RoomDerived.valid t = true)
  ∧ RoomDerived.transcripts (RoomDerived.transcripts values)
    = RoomDerived.transcripts values.
Proof.
  assert (Hperm : RoomDerived.transcripts values
                  ≡ₚ filter (fun t => RoomDerived.valid t = true) values)
    by apply sort_Permutation.
  assert (Hsorted : StronglySorted (fun a b => RoomDerived.by_timestamp a b = true)
                      (RoomDerived.transcripts values))
    by (apply sort_sorted; [apply by_timestamp_total|apply by_timestamp_trans]).
  split; [exact Hperm|]. split; [exact Hsorted|]. split.
  - intros t. rewrite Hperm, list_elem_of_filter. tauto.
  - unfold RoomDerived.transcripts at 1.
    rewrite filter_all.
    + by apply sort_of_sorted.
    + apply Forall_forall. intros t Ht. rewrite Hperm in Ht.
      by apply list_elem_of_filter in Ht as [? _].
Qed.

(** ** Conversation threads *)

Section Threads.

Implicit Types (t : TranscriptSegment.t).
Implicit Types (m : list (string * list TranscriptSegment.t)).

Lemma concat_Permutation {A : Type} (l1 l2 : list (list A)) :
  l1 ≡ₚ l2 → concat l1 ≡ₚ concat l2.
Proof.
  induction 1 as [|x l1 l2 H IH|x y l|l1 l2 l3 H1 IH1 H2 IH2]; cbn.
  - done.
  - by rewrite IH.
  - rewrite !app_assoc. f_equiv. apply Permutation_app_comm.
  - by etrans.
Qed.

Lemma object_entries_Permutation {V : Type} (o : list (string * V)) :
  JsOrder.object_entries o ≡ₚ o.
Proof.
  unfold JsOrder.object_entries. rewrite sort_Permutation.
  apply filter_app_complement.
Qed.

Lemma push_segment_concat sp t m :
  concat ((RoomDerived.push_segment sp t m).*2) ≡ₚ t :: concat (m.*2).
Proof.
  induction m as [|[k l] m IH]; cbn; [done|].
  destruct (decide (k = sp)); cbn.
  - rewrite <- app_assoc. cbn. symmetry. apply Permutation_middle.
  - rewrite IH. symmetry. apply Permutation_middle.
Qed.

Lemma push_segment_keys sp t m :
  (RoomDerived.push_segment sp t m).*1
  = if decide (sp ∈ m.*1) then m.*1 else m.*1 ++ [sp].
Proof.
  induction m as [|[k l] m IH]; cbn.
  - rewrite decide_False; [done|]. apply not_elem_of_nil.
  - destruct (decide (k = sp)) as [->|Hne]; cbn.
    + rewrite decide_True; [done|]. by left.
    + rewrite IH. destruct (decide (sp ∈ m.*1)) as [Hin|Hnin].
      * rewrite decide_True; [done|]. by right.
      * rewrite decide_False; [done|].
        intros [?|?]%elem_of_cons; [by subst|done].
Qed.

(** Where an entry of the object comes from after one more segment. *)
Lemma push_segment_elem sp t m k l :
  NoDup m.*1 →
  (k, l) ∈ RoomDerived.push_segment sp t m →
  (k ≠ sp ∧ (k, l) ∈ m)
  ∨ (k = sp ∧ ((∃ l0, (k, l0) ∈ m ∧ l = l0 ++ [t]) ∨ ((sp ∉ m.*1) ∧ l = [t]))).
Proof.
  induction m as [|[k' l'] m IH]; cbn; intros Hnd Hin.
  - apply list_elem_of_singleton in Hin. injection Hin as -> ->.
    right. split; [done|]. right. split; [apply not_elem_of_nil|done].
  - apply NoDup_cons in Hnd as [Hk' Hnd].
    destruct (decide (k' = sp)) as [->|Hne].
    + apply elem_of_cons in Hin as [Heq|Hin].
      * injection Heq as -> ->. right. split; [done|]. left.
        exists l'. split; [by left|done].
      * left. split; [|by right].
        intros ->. apply Hk'. apply list_elem_of_fmap. by exists (sp, l).
    + apply elem_of_cons in Hin as [Heq|Hin].
      * injection Heq as -> ->. left. split; [done|by left].
      * destruct (IH Hnd Hin) as [[Hk Hm]|[-> [(l0 & Hm & ->)|[Hnin ->]]]].
        -- left. split; [done|by right].
        -- right. split; [done|]. left. exists l0. split; [by right|done].
        -- right. split; [done|]. right. split; [|done].
           intros [?|?]%elem_of_cons; [by subst|done].
Qed.

Lemma filter_snoc_speaker (processed : list TranscriptSegment.t) t k :
  filter (fun t' => RoomDerived.speaker_of t' = k) (processed ++ [t])
  = filter (fun t' => RoomDerived.speaker_of t' = k) processed
    ++ (if decide (RoomDerived.speaker_of t = k) then [t] else []).
Proof.
  by rewrite filter_app.
Qed.

Lemma filter_none {A : Type} (P : A → Prop) `{!∀ x, Decision (P x)} (l : list A) :
  Forall (fun x => ¬ P x) l → filter P l = [].
Proof.
  induction 1 as [|x l Hx Hl IH]; [done|]. by rewrite filter_cons_False.
Qed.

(** One more segment keeps the grouping. *)
Lemma push_segment_grouped (processed : list TranscriptSegment.t) t m :
  grouped_by_speaker processed m →
  grouped_by_speaker (processed ++ [t])
    (RoomDerived.push_segment (RoomDerived.speaker_of t) t m).
Proof.
  intros (Hnd & Hall & Hcover).
  set (sp := RoomDerived.speaker_of t).
  assert (Hkeys : ∀ k, k ∈ m.*1 → k ∈ (RoomDerived.push_segment sp t m).*1).
  { intros k Hk. rewrite push_segment_keys.
    destruct (decide (sp ∈ m.*1)); [done|]. apply elem_of_app. by left. }
  split; [|split].
  - rewrite push_segment_keys. destruct (decide (sp ∈ m.*1)) as [|Hnin]; [done|].
    apply NoDup_app. split; [done|]. split; [|apply NoDup_singleton].
    intros k Hk ->%list_elem_of_singleton. done.
  - apply Forall_forall. intros [k l] Hin. cbn.
    rewrite filter_snoc_speaker. fold sp.
    destruct (push_segment_elem sp t m k l Hnd Hin)
      as [[Hk Hm]|[-> [(l0 & Hm & ->)|[Hnin ->]]]].
    + eapply Forall_forall in Hall; [|exact Hm]. cbn in Hall.
      destruct Hall as [Hl Hne]. rewrite decide_False by done.
      by rewrite app_nil_r.
    + eapply Forall_forall in Hall; [|exact Hm]. cbn in Hall.
      destruct Hall as [Hl Hne]. rewrite decide_True by done.
      split; [by rewrite <- Hl|]. by destruct l0.
    + rewrite decide_True by done. split; [|done].
      rewrite filter_none; [done|].
      eapply Forall_impl; [exact Hcover|]. cbn. intros t' Ht' Heq.
      apply Hnin. by rewrite <- Heq.
  - apply Forall_app. split.
    + eapply Forall_impl; [exact Hcover|]. intros t' Ht'. by apply Hkeys.
    + constructor; [|constructor]. fold sp. rewrite push_segment_keys.
      destruct (decide (sp ∈ m.*1)); [done|].
      apply elem_of_app. right. by left.
Qed.

Lemma speakerMap_grouped_from (ts processed : list TranscriptSegment.t) m :
  grouped_by_speaker processed m →
  grouped_by_speaker (processed ++ ts)
    (foldl (fun m t => RoomDerived.push_segment (RoomDerived.speaker_of t) t m) m ts).
Proof.
  revert processed m. induction ts as [|t ts IH]; intros processed m Hm.
  - by rewrite app_nil_r.
  - cbn [foldl]. rewrite (assoc_L (++) processed [t] ts : processed ++ t :: ts = _).
    apply IH. by apply push_segment_grouped.
Qed.

Lemma speakerMap_grouped (ts : list TranscriptSegment.t) :
  grouped_by_speaker ts (RoomDerived.speakerMap_of ts).
Proof.
  apply (speakerMap_grouped_from ts [] []).
  split; [constructor|]. split; constructor.
Qed.

Lemma speakerMap_concat_from (ts : list TranscriptSegment.t) m :
  concat ((foldl (fun m t => RoomDerived.push_segment (RoomDerived.speaker_of t) t m)
                 m ts).*2)
  ≡ₚ concat (m.*2) ++ ts.
Proof.
  revert m. induction ts as [|t ts IH]; intros m.
  - by rewrite app_nil_r.
  - cbn [foldl]. rewrite IH, push_segment_concat.
    cbn. apply Permutation_middle.
Qed.

End Threads.

Lemma threads_as_sorted_entries
    (username : option string) (now : Z) (ts : list TranscriptSegment.t) :
  RoomDerived.conversationThreads username now ts
  ≡ₚ RoomDerived.thread_of username now
       <$> RoomDerived.speakerMap_of (RoomDerived.transcripts ts).
Proof.
  unfold RoomDerived.conversationThreads.
  rewrite sort_Permutation. apply fmap_Permutation, object_entries_Permutation.
Qed.

Lemma last_timestamp_valid (now : Z) (segs : list TranscriptSegment.t) :
  segs ≠ [] →
  Forall (fun t => RoomDerived.valid t = true) segs →
  ∃ t, last segs = Some t
       ∧ RoomDerived.last_timestamp now segs = TranscriptSegment.timestamp t.
Proof.
  intros Hne Hvalid.
  destruct (last segs) as [t|] eqn:Hlast.
  - exists t. split; [done|]. unfold RoomDerived.last_timestamp. rewrite Hlast.
    apply last_Some_elem_of in Hlast.
    eapply Forall_forall in Hvalid; [|exact Hlast].
    unfold RoomDerived.valid in Hvalid. apply andb_true_iff in Hvalid as [-> _].
    done.
  - by apply last_None in Hlast.
Qed.

(** X2. The conversation threads partition the valid transcripts by speaker:
    taken together the threads hold exactly the entries that have a
    timestamp and a text, none lost and none repeated; no two threads have
    the same speaker; no thread is empty; every segment of a thread carries
    the thread's speaker (its name, or "Unknown" when it has none); and a
    thread is the user's exactly when its speaker is the configured name. *)
Theorem threads_partition_by_speaker
    (username : option string) (now : Z) (ts : list TranscriptSegment.t) :
  let threads := RoomDerived.conversationThreads username now ts in
  concat (RoomDerived.segments <$> threads)
    ≡ₚ filter (fun t => RoomDerived.valid t = true) ts
  ∧ NoDup (RoomDerived.speaker <$> threads)
  ∧ Forall (fun th =>
              RoomDerived.segments th ≠ []
              ∧ Forall (fun t => RoomDerived.speaker_of t = RoomDerived.speaker th)
                       (RoomDerived.segments th)
              ∧ RoomDerived.isUser th
                = bool_decide (Some (RoomDerived.speaker th) = username))
           threads.
Proof.
  cbn zeta.
  pose proof (threads_as_sorted_entries username now ts) as Hperm.
  destruct (speakerMap_grouped (RoomDerived.transcripts ts)) as (Hnd & Hall & _).
  set (sm := RoomDerived.speakerMap_of (RoomDerived.transcripts ts)) in *.
  split; [|split].
  - rewrite (concat_Permutation _ _ (fmap_Permutation _ _ _ Hperm)).
    rewrite <- list_fmap_compose.
    change (RoomDerived.segments ∘ RoomDerived.thread_of username now)
      with (@snd string (list TranscriptSegment.t)).
    pose proof (speakerMap_concat_from (RoomDerived.transcripts ts) []) as Hc.
    cbn in Hc. fold (RoomDerived.speakerMap_of (RoomDerived.transcripts ts)) in Hc.
    fold sm in Hc. rewrite Hc. apply sort_Permutation.
  - rewrite Hperm, <- list_fmap_compose.
    change (RoomDerived.speaker ∘ RoomDerived.thread_of username now)
      with (@fst string (list TranscriptSegment.t)).
    exact Hnd.
  - rewrite Hperm. apply Forall_fmap.
    eapply Forall_impl; [exact Hall|]. intros [k l] [Hl Hne]. cbn in *.
    split; [done|]. split; [|done].
    rewrite Hl. apply Forall_forall. intros t Ht.
    by apply list_elem_of_filter in Ht as [? _].
Qed.

(** X3. The threads are ordered by the timestamp of their first segment, and
    each thread holds the segments of its speaker in the order of the sorted
    transcript, that is by ascending timestamp; its last timestamp is the
    timestamp of its last segment (the fallback to the current time is never
    taken). *)
Theorem threads_in_timestamp_order
    (username : option string) (now : Z) (ts : list TranscriptSegment.t) :
  let threads := RoomDerived.conversationThreads username now ts in
  StronglySorted (fun a b => RoomDerived.by_first_message a b = true) threads
  ∧ Forall (fun th =>
              RoomDerived.segments th
              = filter (fun t => RoomDerived.speaker_of t = RoomDerived.speaker th)
                       (RoomDerived.transcripts ts)
              ∧ StronglySorted (fun a b => RoomDerived.by_timestamp a b = true)
                               (RoomDerived.segments th)
              ∧ ∃ t, last (RoomDerived.segments th) = Some t
                     ∧ RoomDerived.lastTimestamp th = TranscriptSegment.timestamp t)
           threads.
Proof.
  cbn zeta. split.
  - unfold RoomDerived.conversationThreads. apply sort_sorted.
    + intros a b. apply leb_total.
    + intros a b c. apply leb_trans.
  - rewrite (threads_as_sorted_entries username now ts).
    destruct (speakerMap_grouped (RoomDerived.transcripts ts)) as (_ & Hall & _).
    destruct (transcripts_sorted_helper ts) as [Hsorted Hvalid].
    apply Forall_fmap. eapply Forall_impl; [exact Hall|].
    intros [k l] [Hl Hne]. cbn in *.
    split; [done|]. split.
    + rewrite Hl. by apply filter_sorted.
    + apply last_timestamp_valid; [done|]. rewrite Hl.
      by apply filter_keeps_Forall.
Qed.

(** ** The manager's logs *)

Section LogLemmas.

Context {A B : Type} (key : A → Z) (val : A → B).

Local Abbreviation record := (record_once key val).

Lemma record_step_seen (x : A) (acc : gset Z * list B) :
  (record acc x).1 = acc.1 ∪ {[key x]}.
Proof.
  unfold record_once. destruct (decide (key x ∈ acc.1)) as [Hin|Hnin]; cbn.
  - apply set_eq. intros k. rewrite elem_of_union, elem_of_singleton.
    split; [by left|]. intros [Hk| ->]; done.
  - apply (comm_L (∪)).
Qed.

Lemma record_step_counts (x : A) (acc : gset Z * list B) :
  length (record acc x).2 + size acc.1 = length acc.2 + size (record acc x).1.
Proof.
  unfold record_once. destruct (decide (key x ∈ acc.1)) as [Hin|Hnin]; [done|].
  cbn. rewrite length_app, size_union, size_singleton.
  - cbn. lia.
  - intros k Hk Hk'. apply elem_of_singleton in Hk. by subst k.
Qed.

Lemma record_seen_exactly (xs : list A) (acc : gset Z * list B) :
  (foldl record acc xs).1 = acc.1 ∪ list_to_set (key <$> xs).
Proof.
  revert acc. induction xs as [|x xs IH]; intros acc.
  - cbn. by rewrite (right_id_L ∅ (∪)).
  - cbn [foldl]. rewrite IH, record_step_seen. cbn [fmap list_fmap list_to_set].
    by rewrite (assoc_L (∪)).
Qed.

(** Every id that is new to the set adds exactly one entry to the log. *)
Lemma record_counts (xs : list A) (acc : gset Z * list B) :
  length (foldl record acc xs).2 + size acc.1
  = length acc.2 + size (foldl record acc xs).1.
Proof.
  revert acc. induction xs as [|x xs IH]; intros acc; [done|].
  cbn [foldl]. pose proof (IH (record acc x)) as H1.
  pose proof (record_step_counts x acc) as H2.
  change (record_once key val acc x) with (record acc x) in *. lia.
Qed.

End LogLemmas.

Lemma log_extends_refl (m : WebSocketManager.t) : log_extends m m.
Proof. by repeat split. Qed.

(** Closes [log_extends m m'] when [m'] is [m] with fields outside the
    relation assigned. *)
Ltac fields_kept := unfold log_extends; cbn; by repeat split.

Lemma log_extends_trans (a b c : WebSocketManager.t) :
  log_extends a b → log_extends b c → log_extends a c.
Proof.
  intros (H1 & H2 & H3 & H4 & H5 & H6 & H7 & H8)
         (G1 & G2 & G3 & G4 & G5 & G6 & G7 & G8).
  repeat split; try (by etrans); congruence.
Qed.

Lemma process_multilingual_log_grows
    (p : Payload RecentTranslation.t) (m : WebSocketManager.t) :
  WebSocketManager.multilingualTranscript m
    `prefix_of` WebSocketManager.multilingualTranscript
                  (WebSocketManager.process_multilingual p m).
Proof.
  destruct p; [done|done|]. cbn.
  apply (record_log_grows RecentTranslation.id
           (fun tr => (RecentTranslation.timestamp tr, RecentTranslation.translations tr))
           recent_segments
           (WebSocketManager._processedTranslationIds m,
            WebSocketManager.multilingualTranscript m)).
Qed.

Lemma process_transcript_seen_grows
    (p : Payload RecentSegment.t) (m : WebSocketManager.t) :
  WebSocketManager._processedTranscriptIds m
    ⊆ WebSocketManager._processedTranscriptIds (WebSocketManager.process_transcript p m).
Proof.
  destruct p; [done|done|]. cbn.
  apply (record_seen_grows RecentSegment.id
           (fun seg => (RecentSegment.timestamp seg, RecentSegment.data seg))
           recent_segments
           (WebSocketManager._processedTranscriptIds m, WebSocketManager.transcript m)).
Qed.

Lemma process_multilingual_seen_grows
    (p : Payload RecentTranslation.t) (m : WebSocketManager.t) :
  WebSocketManager._processedTranslationIds m
    ⊆ WebSocketManager._processedTranslationIds
        (WebSocketManager.process_multilingual p m).
Proof.
  destruct p; [done|done|]. cbn.
  apply (record_seen_grows RecentTranslation.id
           (fun tr => (RecentTranslation.timestamp tr, RecentTranslation.translations tr))
           recent_segments
           (WebSocketManager._processedTranslationIds m,
            WebSocketManager.multilingualTranscript m)).
Qed.

Lemma process_transcript_extends
    (p : Payload RecentSegment.t) (m : WebSocketManager.t) :
  log_extends m (WebSocketManager.process_transcript p m).
Proof.
  split; [apply process_transcript_log_grows|].
  split; [by destruct p|].
  split; [apply process_transcript_seen_grows|].
  by destruct p.
Qed.

Lemma process_multilingual_extends
    (p : Payload RecentTranslation.t) (m : WebSocketManager.t) :
  log_extends m (WebSocketManager.process_multilingual p m).
Proof.
  split; [by destruct p|].
  split; [apply process_multilingual_log_grows|].
  split; [by destruct p|].
  split; [apply process_multilingual_seen_grows|].
  by destruct p.
Qed.

Lemma processSegments_extends
    (now : Z) (multilingual : Payload RecentTranslation.t)
    (transcript_ : Payload RecentSegment.t)
    (last : option (list (number * TranscriptionData.t)))
    (languages : list string) (m : WebSocketManager.t) :
  log_extends m
    (WebSocketManager.processSegments now multilingual transcript_ last languages m).1.
Proof.
  unfold WebSocketManager.processSegments. cbn [fst].
  pose proof (process_transcript_extends transcript_
                (WebSocketManager.set_availableLanguages languages m)) as H1.
  pose proof (process_multilingual_extends multilingual
                (WebSocketManager.process_transcript transcript_
                   (WebSocketManager.set_availableLanguages languages m))) as H2.
  eapply log_extends_trans; [|eapply log_extends_trans; [exact H1|]];
    [fields_kept|].
  eapply log_extends_trans; [exact H2|fields_kept].
Qed.

Lemma handle_summary_extends (now : Z) (data : Message.t) (m : WebSocketManager.t) :
  log_extends m (WebSocketManager.handle_summary now data m).1.
Proof.
  unfold WebSocketManager.handle_summary.
  destruct (Message.summary data); [fields_kept|apply log_extends_refl].
Qed.

Lemma handle_transcript_extends (now : Z) (data : Message.t) (m : WebSocketManager.t) :
  log_extends m (WebSocketManager.handle_transcript now data m).1.
Proof.
  unfold WebSocketManager.handle_transcript.
  destruct (Message.transcript data); [apply log_extends_refl|..];
    (eapply log_extends_trans; [|apply processSegments_extends]); fields_kept.
Qed.

Lemma summary_then_transcript_extends
    (now : Z) (data : Message.t) (m : WebSocketManager.t) :
  log_extends m
    (let (m1, a1) := WebSocketManager.handle_summary now data m in
     let (m2, a2) := WebSocketManager.handle_transcript now data m1 in
     (m2, a1 ++ a2)).1.
Proof.
  pose proof (handle_summary_extends now data m) as H1.
  destruct (WebSocketManager.handle_summary now data m) as [m1 a1].
  pose proof (handle_transcript_extends now data m1) as H2.
  destruct (WebSocketManager.handle_transcript now data m1) as [m2 a2].
  exact (log_extends_trans _ _ _ H1 H2).
Qed.

Lemma handleMessage_extends (now : Z) (event : MessageData) (m : WebSocketManager.t) :
  log_extends m (WebSocketManager.handleMessage now event m).1.
Proof.
  destruct event as [buffer|raw|data]; [apply log_extends_refl..|].
  unfold WebSocketManager.handleMessage.
  destruct (WebSocketManager.uid_mismatch data m); [apply log_extends_refl|].
  destruct (truthy_opt (Message.status data)); [apply log_extends_refl|].
  destruct (decide (Message.message data = Some "DISCONNECT"));
    [apply log_extends_refl|].
  destruct (decide (Message.message data = Some "SERVER_READY")); [fields_kept|].
  destruct (Message.language data) as [l|];
    [|apply summary_then_transcript_extends].
  destruct (Message.language_prob data) as [p|];
    [|apply summary_then_transcript_extends].
  destruct (truthy_string l && JsNumber.truthy p);
    [apply log_extends_refl|apply summary_then_transcript_extends].
Qed.

(** X4. Whatever messages arrive, in whatever order, the manager's two logs
    (finalized segments and translations) only ever gain entries at their
    end, its two sets of seen ids only gain members, and the connection
    itself (socket, session identity, configuration, audio packet counter)
    is left as it was: no inbound message can remove or rewrite a logged
    segment or translation. *)
Theorem inbound_messages_only_append
    (events : list (Z * MessageData)) (m : WebSocketManager.t) :
  log_extends m (receive_all events m).
Proof.
  revert m. induction events as [|[now event] events IH]; intros m.
  - apply log_extends_refl.
  - unfold receive_all. cbn [foldl fst snd].
    eapply log_extends_trans; [apply handleMessage_extends|apply IH].
Qed.

Lemma handleStatusMessages_cases (data : Message.t) :
  WebSocketManager.handleStatusMessages data = []
  ∨ WebSocketManager.handleStatusMessages data = [Notify (StatusChange Waiting)]
  ∨ WebSocketManager.handleStatusMessages data = [Notify (StatusChange Error)].
Proof.
  unfold WebSocketManager.handleStatusMessages.
  destruct (Message.status data) as [s|]; [|by left].
  repeat match goal with
         | |- context [match ?x with _ => _ end] =>
             is_var x; destruct x; cbv iota; try (by left)
         end.
  all: auto.
Qed.

Lemma summary_then_transcript_emits
    (now : Z) (data : Message.t) (m : WebSocketManager.t) :
  let r := (let (m1, a1) := WebSocketManager.handle_summary now data m in
            let (m2, a2) := WebSocketManager.handle_transcript now data m1 in
            (m2, a1 ++ a2)) in
  transcriptions r.2 = []
  ∨ transcriptions r.2
    = map (WebSocketManager.finalized_segment
             (WebSocketManager.multilingualTranscript r.1))
          (WebSocketManager.transcript r.1)
      ++ WebSocketManager.in_progress_segment (Message.last_segments data).
Proof.
  cbn zeta.
  assert (Hsum : transcriptions (WebSocketManager.handle_summary now data m).2 = []).
  { unfold WebSocketManager.handle_summary. by destruct (Message.summary data). }
  destruct (WebSocketManager.handle_summary now data m) as [m1 a1].
  cbn [snd] in Hsum.
  unfold WebSocketManager.handle_transcript.
  destruct (Message.transcript data) eqn:Htr.
  - left. cbn [snd]. by rewrite transcriptions_app, Hsum.
  - right.
    pose proof (processSegments_emits now (Message.multilingual_transcript data)
                  NotAnObject (Message.last_segments data)
                  (default [] (Message.available_languages data))
                  (WebSocketManager.set_lastResponseReceived now m1)) as Hemit.
    cbn zeta in Hemit.
    destruct (WebSocketManager.processSegments _ _ _ _ _ _) as [m2 a2].
    cbn [fst snd] in *. by rewrite transcriptions_app, Hsum.
  - right.
    pose proof (processSegments_emits now (Message.multilingual_transcript data)
                  (Segments recent_segments) (Message.last_segments data)
                  (default [] (Message.available_languages data))
                  (WebSocketManager.set_lastResponseReceived now m1)) as Hemit.
    cbn zeta in Hemit.
    destruct (WebSocketManager.processSegments _ _ _ _ _ _) as [m2 a2].
    cbn [fst snd] in *. by rewrite transcriptions_app, Hsum.
Qed.

Lemma handleMessage_emits (now : Z) (event : MessageData) (m : WebSocketManager.t) :
  let r := WebSocketManager.handleMessage now event m in
  transcriptions r.2 = []
  ∨ ∃ last,
      transcriptions r.2
      = map (WebSocketManager.finalized_segment
               (WebSocketManager.multilingualTranscript r.1))
            (WebSocketManager.transcript r.1)
        ++ WebSocketManager.in_progress_segment last.
Proof.
  cbn zeta.
  destruct event as [buffer|raw|data]; [by left..|].
  unfold WebSocketManager.handleMessage.
  assert (Hrest :
    let r := (let (m1, a1) := WebSocketManager.handle_summary now data m in
              let (m2, a2) := WebSocketManager.handle_transcript now data m1 in
              (m2, a1 ++ a2)) in
    transcriptions r.2 = []
    ∨ ∃ last,
        transcriptions r.2
        = map (WebSocketManager.finalized_segment
                 (WebSocketManager.multilingualTranscript r.1))
              (WebSocketManager.transcript r.1)
          ++ WebSocketManager.in_progress_segment last).
  { destruct (summary_then_transcript_emits now data m) as [H|H];
      [by left|right; by eexists]. }
  cbn zeta in Hrest.
  destruct (WebSocketManager.uid_mismatch data m); [by left|].
  destruct (truthy_opt (Message.status data)).
  { left. cbn [snd].
    by destruct (handleStatusMessages_cases data) as [-> | [-> | ->]]. }
  destruct (decide (Message.message data = Some "DISCONNECT")); [by left|].
  destruct (decide (Message.message data = Some "SERVER_READY")); [by left|].
  destruct (Message.language data) as [l|]; [|exact Hrest].
  destruct (Message.language_prob data) as [p|]; [|exact Hrest].
  destruct (truthy_string l && JsNumber.truthy p); [by left|exact Hrest].
Qed.

(** X5. The first translation logged for a timestamp is the one that stays:
    once the manager holds a translation for a timestamp, no later message
    of any kind changes what is looked up for that timestamp, and every
    finalized segment with that timestamp that the message makes the manager
    emit carries exactly that translation. *)
Theorem first_translation_wins
    (now : Z) (event : MessageData) (m : WebSocketManager.t)
    (T : number) (tm : Translations) :
  WebSocketManager.find_translation T (WebSocketManager.multilingualTranscript m)
    = Some tm →
  let r := WebSocketManager.handleMessage now event m in
  WebSocketManager.find_translation T (WebSocketManager.multilingualTranscript r.1)
    = Some tm
  ∧ Forall (fun d => TranscriptSegment.completed d = Some true →
                     TranscriptSegment.timestamp d = T →
                     TranscriptSegment.translations d = Some tm)
           (transcriptions r.2).
Proof.
  intros Hfound r.
  assert (Hkept : WebSocketManager.find_translation T
                    (WebSocketManager.multilingualTranscript r.1) = Some tm).
  { destruct (handleMessage_extends now event m) as (_ & [extra Hextra] & _).
    subst r. rewrite Hextra, find_translation_app. by rewrite Hfound. }
  split; [exact Hkept|].
  destruct (handleMessage_emits now event m) as [Hnone|[last Hsome]];
    fold r in Hnone || fold r in Hsome.
  - rewrite Hnone. constructor.
  - rewrite Hsome. apply Forall_app. split.
    + apply Forall_forall. intros d Hd _ Htime.
      apply list_elem_of_In, in_map_iff in Hd. destruct Hd as (entry & <- & _).
      cbn in Htime. cbn. by rewrite Htime.
    + unfold WebSocketManager.in_progress_segment.
      destruct last as [[|[timestamp data] rest]|]; try constructor.
      destruct (truthy_string _); repeat constructor. cbn. discriminate.
Qed.

Lemma first_translation_wins_witness :
  let r := WebSocketManager.handleMessage 12
             (translation_event
                [RecentTranslation.mk 10 (JsNumber.of_Z 1) {[ "es" := "otro" ]}])
             translated_connection in
  WebSocketManager.find_translation (JsNumber.of_Z 1)
    (WebSocketManager.multilingualTranscript r.1) = Some {[ "es" := "uno" ]}
  ∧ Forall (fun d => TranscriptSegment.completed d = Some true →
                     TranscriptSegment.timestamp d = JsNumber.of_Z 1 →
                     TranscriptSegment.translations d = Some {[ "es" := "uno" ]})
           (transcriptions r.2).
Proof.
  apply (first_translation_wins 12 _ translated_connection (JsNumber.of_Z 1)).
  reflexivity.
Defined.

(** X6. A control message - one with a truthy [status], a DISCONNECT or
    SERVER_READY [message], or a detected language with its probability - is
    answered before the manager looks at anything else in it: even when the
    same message also carries a summary, transcript segments, translations,
    a live segment or a language list, none of them is taken in (logs,
    seen-id sets, live segment, language list and summary stay as they
    were), no segment is emitted, and at most one callback is made. *)
Theorem control_message_hides_payload
    (now : Z) (data : Message.t) (m : WebSocketManager.t) :
  is_control data = true →
  let r := WebSocketManager.handleMessage now (Json data) m in
  WebSocketManager.transcript r.1 = WebSocketManager.transcript m
  ∧ WebSocketManager.multilingualTranscript r.1
    = WebSocketManager.multilingualTranscript m
  ∧ WebSocketManager._processedTranscriptIds r.1
    = WebSocketManager._processedTranscriptIds m
  ∧ WebSocketManager._processedTranslationIds r.1
    = WebSocketManager._processedTranslationIds m
  ∧ WebSocketManager.lastSegment r.1 = WebSocketManager.lastSegment m
  ∧ WebSocketManager.availableLanguages r.1 = WebSocketManager.availableLanguages m
  ∧ WebSocketManager.meetingSummary r.1 = WebSocketManager.meetingSummary m
  ∧ transcriptions r.2 = []
  ∧ (length r.2 ≤ 1)%nat.
Proof.
  intros Hcontrol r. subst r. unfold is_control in Hcontrol.
  unfold WebSocketManager.handleMessage.
  destruct (WebSocketManager.uid_mismatch data m); [by repeat split; cbn; lia|].
  destruct (truthy_opt (Message.status data)).
  { cbn [fst snd].
    destruct (handleStatusMessages_cases data) as [-> | [-> | ->]];
      repeat split; cbn; lia. }
  destruct (decide (Message.message data = Some "DISCONNECT")) as [|Hd];
    [by repeat split|].
  destruct (decide (Message.message data = Some "SERVER_READY")) as [|Hr];
    [by repeat split|].
  rewrite !bool_decide_false in Hcontrol by done. cbn [orb] in Hcontrol.
  destruct (Message.language data) as [l|]; [|done].
  destruct (Message.language_prob data) as [p|]; [|done].
  rewrite Hcontrol. by repeat split.
Qed.

Lemma control_message_hides_payload_witness :
  let r := WebSocketManager.handleMessage 12 (Json loaded_status_message)
             first_connection in
  WebSocketManager.transcript r.1 = WebSocketManager.transcript first_connection
  ∧ WebSocketManager.multilingualTranscript r.1
    = WebSocketManager.multilingualTranscript first_connection
  ∧ WebSocketManager._processedTranscriptIds r.1
    = WebSocketManager._processedTranscriptIds first_connection
  ∧ WebSocketManager._processedTranslationIds r.1
    = WebSocketManager._processedTranslationIds first_connection
  ∧ WebSocketManager.lastSegment r.1 = WebSocketManager.lastSegment first_connection
  ∧ WebSocketManager.availableLanguages r.1
    = WebSocketManager.availableLanguages first_connection
  ∧ WebSocketManager.meetingSummary r.1
    = WebSocketManager.meetingSummary first_connection
  ∧ transcriptions r.2 = []
  ∧ (length r.2 ≤ 1)%nat.
Proof.
  apply (control_message_hides_payload 12 loaded_status_message first_connection).
  reflexivity.
Defined.

(** X7. [processSegments] logs each server id once. After a call, the set
    of seen segment ids is the earlier set together with the ids of the
    delivered segments, and the log has grown by exactly the number of ids
    that were not in the set before - however often an id is repeated
    within the delivery or across deliveries; the same holds for the
    translation entries and their log. A payload that is not an object
    changes neither. *)
Theorem each_id_logged_once
    (now : Z) (multilingual : Payload RecentTranslation.t)
    (transcript_ : Payload RecentSegment.t)
    (last : option (list (number * TranscriptionData.t)))
    (languages : list string) (m : WebSocketManager.t) :
  let m' :=
    (WebSocketManager.processSegments now multilingual transcript_ last languages m).1 in
  WebSocketManager._processedTranscriptIds m'
  = WebSocketManager._processedTranscriptIds m ∪ delivered_ids RecentSegment.id transcript_
  ∧ (length (WebSocketManager.transcript m')
     + size (WebSocketManager._processedTranscriptIds m)
     = length (WebSocketManager.transcript m)
       + size (WebSocketManager._processedTranscriptIds m'))%nat
  ∧ WebSocketManager._processedTranslationIds m'
    = WebSocketManager._processedTranslationIds m
      ∪ delivered_ids RecentTranslation.id multilingual
  ∧ (length (WebSocketManager.multilingualTranscript m')
     + size (WebSocketManager._processedTranslationIds m)
     = length (WebSocketManager.multilingualTranscript m)
       + size (WebSocketManager._processedTranslationIds m'))%nat.
Proof.
  cbn zeta. unfold WebSocketManager.processSegments, delivered_ids. cbn [fst].
  assert (Hseg :
    WebSocketManager._processedTranscriptIds
      (WebSocketManager.process_transcript transcript_
         (WebSocketManager.set_availableLanguages languages m))
    = WebSocketManager._processedTranscriptIds m
      ∪ match transcript_ with
        | Segments l => list_to_set (RecentSegment.id <$> l)
        | _ => ∅
        end
    ∧ (length (WebSocketManager.transcript
                 (WebSocketManager.process_transcript transcript_
                    (WebSocketManager.set_availableLanguages languages m)))
       + size (WebSocketManager._processedTranscriptIds m)
       = length (WebSocketManager.transcript m)
         + size (WebSocketManager._processedTranscriptIds
                   (WebSocketManager.process_transcript transcript_
                      (WebSocketManager.set_availableLanguages languages m))))%nat).
  { destruct transcript_ as [| |l]; cbn;
      [by rewrite (right_id_L ∅ (∪))..|].
    split.
    - apply (record_seen_exactly RecentSegment.id
               (fun seg => (RecentSegment.timestamp seg, RecentSegment.data seg)) l
               (WebSocketManager._processedTranscriptIds m,
                WebSocketManager.transcript m)).
    - apply (record_counts RecentSegment.id
               (fun seg => (RecentSegment.timestamp seg, RecentSegment.data seg)) l
               (WebSocketManager._processedTranscriptIds m,
                WebSocketManager.transcript m)). }
  set (m2 := WebSocketManager.process_transcript transcript_
               (WebSocketManager.set_availableLanguages languages m)) in *.
  assert (Htr :
    WebSocketManager._processedTranslationIds
      (WebSocketManager.process_multilingual multilingual m2)
    = WebSocketManager._processedTranslationIds m2
      ∪ match multilingual with
        | Segments l => list_to_set (RecentTranslation.id <$> l)
        | _ => ∅
        end
    ∧ (length (WebSocketManager.multilingualTranscript
                 (WebSocketManager.process_multilingual multilingual m2))
       + size (WebSocketManager._processedTranslationIds m2)
       = length (WebSocketManager.multilingualTranscript m2)
         + size (WebSocketManager._processedTranslationIds
                   (WebSocketManager.process_multilingual multilingual m2)))%nat).
  { destruct multilingual as [| |l]; cbn;
      [by rewrite (right_id_L ∅ (∪))..|].
    split.
    - apply (record_seen_exactly RecentTranslation.id
               (fun tr => (RecentTranslation.timestamp tr,
                           RecentTranslation.translations tr)) l
               (WebSocketManager._processedTranslationIds m2,
                WebSocketManager.multilingualTranscript m2)).
    - apply (record_counts RecentTranslation.id
               (fun tr => (RecentTranslation.timestamp tr,
                           RecentTranslation.translations tr)) l
               (WebSocketManager._processedTranslationIds m2,
                WebSocketManager.multilingualTranscript m2)). }
  assert (Hm2 : WebSocketManager._processedTranslationIds m2
                = WebSocketManager._processedTranslationIds m
                ∧ WebSocketManager.multilingualTranscript m2
                  = WebSocketManager.multilingualTranscript m)
    by (subst m2; by destruct transcript_).
  assert (Hm3 : WebSocketManager._processedTranscriptIds
                  (WebSocketManager.process_multilingual multilingual m2)
                = WebSocketManager._processedTranscriptIds m2
                ∧ WebSocketManager.transcript
                    (WebSocketManager.process_multilingual multilingual m2)
                  = WebSocketManager.transcript m2)
    by (by destruct multilingual).
  destruct Hm2 as [Hm2a Hm2b], Hm3 as [Hm3a Hm3b], Hseg as [Hs1 Hs2],
           Htr as [Ht1 Ht2].
  cbn [WebSocketManager.set_lastResponseReceived WebSocketManager.set_lastSegment
       WebSocketManager._processedTranscriptIds WebSocketManager.transcript
       WebSocketManager._processedTranslationIds
       WebSocketManager.multilingualTranscript].
  rewrite Hm3a, Hm3b. rewrite Hm2a in Ht1, Ht2. rewrite Hm2b in Ht2.
  done.
Qed.

(** ** What reaches the socket *)

Lemma transmitted_app (a b : list Action) :
  transmitted (a ++ b) = transmitted a ++ transmitted b.
Proof. apply omap_app. Qed.

Lemma transmitted_notify {A : Type} (f : A → Callback) (l : list A) :
  transmitted (map (fun d => Notify (f d)) l) = [].
Proof. by induction l. Qed.

Lemma updateUI_transmits_nothing (m : WebSocketManager.t) :
  transmitted (WebSocketManager.updateUI m) = [].
Proof.
  unfold WebSocketManager.updateUI. rewrite transmitted_app.
  rewrite (transmitted_notify
             (fun entry => Transcription
                (WebSocketManager.finalized_segment
                   (WebSocketManager.multilingualTranscript m) entry))).
  by rewrite (transmitted_notify Transcription).
Qed.

Lemma handle_summary_transmits_nothing now data m :
  transmitted (WebSocketManager.handle_summary now data m).2 = [].
Proof. unfold WebSocketManager.handle_summary. by destruct (Message.summary data). Qed.

Lemma handle_transcript_transmits_nothing now data m :
  transmitted (WebSocketManager.handle_transcript now data m).2 = [].
Proof.
  unfold WebSocketManager.handle_transcript, WebSocketManager.processSegments.
  destruct (Message.transcript data); [done|..];
    cbn [snd]; apply updateUI_transmits_nothing.
Qed.

Lemma summary_then_transcript_transmits_nothing now data m :
  transmitted
    (let (m1, a1) := WebSocketManager.handle_summary now data m in
     let (m2, a2) := WebSocketManager.handle_transcript now data m1 in
     (m2, a1 ++ a2)).2 = [].
Proof.
  pose proof (handle_summary_transmits_nothing now data m) as H1.
  destruct (WebSocketManager.handle_summary now data m) as [m1 a1].
  pose proof (handle_transcript_transmits_nothing now data m1) as H2.
  destruct (WebSocketManager.handle_transcript now data m1) as [m2 a2].
  cbn [snd] in *. by rewrite transmitted_app, H1, H2.
Qed.

Lemma handleMessage_transmits_nothing now event m :
  transmitted (WebSocketManager.handleMessage now event m).2 = [].
Proof.
  destruct event as [buffer|raw|data]; [done..|].
  unfold WebSocketManager.handleMessage.
  destruct (WebSocketManager.uid_mismatch data m); [done|].
  destruct (truthy_opt (Message.status data)).
  { cbn [snd]. by destruct (handleStatusMessages_cases data) as [-> | [-> | ->]]. }
  destruct (decide (Message.message data = Some "DISCONNECT")); [done|].
  destruct (decide (Message.message data = Some "SERVER_READY")); [done|].
  destruct (Message.language data) as [l|];
    [|apply summary_then_transcript_transmits_nothing].
  destruct (Message.language_prob data) as [p|];
    [|apply summary_then_transcript_transmits_nothing].
  destruct (truthy_string l && JsNumber.truthy p);
    [done|apply summary_then_transcript_transmits_nothing].
Qed.

Section WireLemmas.

Variable Number : string → option Z.
Variable url_accepted : bool.
Variable render : Room.State.

Lemma run_commands_wire (commands : list Room.Command) (x : Session.t) :
  Session.wire (foldl Session.run_command x commands) = Session.wire x.
Proof.
  revert x. induction commands as [|c commands IH]; intros x; [done|].
  cbn [foldl]. rewrite IH. by destruct c.
Qed.

Lemma perform_wire (x : Session.t) (a : Action) :
  Session.wire (Session.perform Number render x a)
  = Session.wire x ++ transmitted [a].
Proof.
  destruct a as [c|o|]; cbn.
  - destruct (Room.dispatch Number render c (Session.page x)) as [p commands].
    by rewrite run_commands_wire, app_nil_r.
  - done.
  - by rewrite app_nil_r.
Qed.

Lemma perform_all_wire (actions : list Action) (x : Session.t) :
  Session.wire (Session.perform_all Number render x actions)
  = Session.wire x ++ transmitted actions.
Proof.
  revert x. induction actions as [|a actions IH]; intros x.
  - cbn. by rewrite app_nil_r.
  - unfold Session.perform_all in *. cbn [foldl]. rewrite IH, perform_wire.
    change (a :: actions) with ([a] ++ actions).
    by rewrite transmitted_app, (assoc_L (++)).
Qed.

Lemma connect_wire (x : Session.t) :
  Session.wire (Session.connect Number url_accepted render x) = Session.wire x.
Proof.
  unfold Session.connect, WebSocketManager.connect.
  destruct url_accepted; rewrite perform_all_wire; cbn; by rewrite app_nil_r.
Qed.

Lemma step_wire (x : Session.t) (e : Session.Event) :
  Session.wire (Session.step Number url_accepted render x e)
  = Session.wire x ++ sent_on x e.
Proof.
  destruct e; cbn [Session.step sent_on].
  - rewrite perform_all_wire. cbn [Session.wire Session.set_ws]. f_equal.
    unfold Session.socket_becomes, WebSocketManager.handleOpen.
    destruct (WebSocketManager.socket (Session.ws x)) as [rs|] eqn:Hs.
    + by rewrite bool_decide_true by by eexists.
    + rewrite Hs. rewrite bool_decide_false; [done|]. by intros [? ?].
  - unfold WebSocketManager.handleError. by rewrite perform_all_wire.
  - unfold WebSocketManager.handleClose. by rewrite perform_all_wire.
  - pose proof (handleMessage_transmits_nothing now data (Session.ws x)) as H.
    destruct (WebSocketManager.handleMessage now data (Session.ws x)) as [m actions].
    rewrite perform_all_wire. cbn [snd] in H. by rewrite H.
  - unfold AudioManager.handleAudioProcess, WebSocketManager.sendAudio.
    destruct (AudioManager.isRecording (Session.audio x)); cbn [andb];
      [|by rewrite app_nil_r].
    destruct (WebSocketManager.socket (Session.ws x)) as [[]|] eqn:Hs;
      cbn; by rewrite ?app_nil_r.
  - destruct (Session.timers x) as [|n]; [by rewrite app_nil_r|].
    destruct (Room.reconnect_due render); [rewrite connect_wire|];
      by rewrite app_nil_r.
  - destruct (bool_decide _); [|by rewrite app_nil_r].
    destruct (Room.toggleRecording _ _) as [a p]. by rewrite app_nil_r.
  - destruct (_ && _); [rewrite connect_wire|]; by rewrite app_nil_r.
  - unfold WebSocketManager.disconnect. rewrite perform_all_wire.
    cbn [Session.wire Session.set_ws Session.set_audio]. f_equal.
    rewrite transmitted_app.
    destruct (WebSocketManager.socket (Session.ws x)) as [[]|]; by cbn.
Qed.

Lemma run_wire (events : list Session.Event) (x : Session.t) :
  Session.wire x `prefix_of` Session.wire (Session.run Number url_accepted render x events).
Proof.
  revert x. induction events as [|e events IH]; intros x; [done|].
  unfold Session.run in *. cbn [foldl]. etrans; [|apply IH].
  rewrite step_wire. by apply prefix_app_r.
Qed.

End WireLemmas.

(** X8. The page's whole outbound traffic. Whatever the state of the page
    and its two managers, one event of the loop hands the socket exactly:
    the handshake (session uid, user name, model, VAD flag) when the socket
    the manager holds opens; the audio frame when the audio processor fires
    while a recording is on and the socket is open; the disconnect notice
    when the user leaves through an open socket; and nothing in every other
    case. In particular no server message, socket error, close event, retry
    or click on the microphone button is ever answered on the socket, and
    what has been sent stays in order before what is sent later. *)
Theorem outbound_traffic
    (Number : string → option Z) (url_accepted : bool) (render : Room.State)
    (x : Session.t) (e : Session.Event) (events : list Session.Event) :
  Session.wire (Session.step Number url_accepted render x e)
  = Session.wire x ++ sent_on x e
  ∧ Session.wire x
      `prefix_of` Session.wire (Session.run Number url_accepted render x events).
Proof. split; [apply step_wire|apply run_wire]. Qed.

(** ** Leaving the room *)

Section LeaveLemmas.

Variable Number : string → option Z.
Variable url_accepted : bool.
Variable render : Room.State.

Lemma stop_not_recording (a : AudioManager.t) :
  AudioManager.isRecording (AudioManager.stop a) = false.
Proof. unfold AudioManager.stop. by destruct (AudioManager.isRecording a) eqn:H. Qed.

(** The callbacks never start a recording. *)
Lemma run_commands_audio_off (commands : list Room.Command) (x : Session.t) :
  AudioManager.isRecording (Session.audio x) = false →
  AudioManager.isRecording (Session.audio (foldl Session.run_command x commands))
  = false.
Proof.
  revert x. induction commands as [|c commands IH]; intros x Hx; [done|].
  cbn [foldl]. apply IH. destruct c; [apply stop_not_recording|exact Hx].
Qed.

Lemma perform_all_audio_off (actions : list Action) (x : Session.t) :
  AudioManager.isRecording (Session.audio x) = false →
  AudioManager.isRecording
    (Session.audio (Session.perform_all Number render x actions)) = false.
Proof.
  revert x. induction actions as [|a actions IH]; intros x Hx; [done|].
  unfold Session.perform_all in *. cbn [foldl]. apply IH.
  destruct a as [c|o|]; cbn; [|done..].
  destruct (Room.dispatch Number render c (Session.page x)) as [p commands].
  by apply run_commands_audio_off.
Qed.

(** Without a socket an event that does not reconnect leaves the manager
    without a socket. *)
Lemma step_stays_closed (x : Session.t) (e : Session.Event) :
  reconnects e = false →
  WebSocketManager.socket (Session.ws x) = None →
  WebSocketManager.socket (Session.ws (Session.step Number url_accepted render x e))
  = None.
Proof.
  intros He Hs. destruct e; try discriminate He; cbn [Session.step].
  - by rewrite perform_all_ws; unfold Session.socket_becomes; rewrite Hs.
  - unfold WebSocketManager.handleError. by rewrite perform_all_ws.
  - unfold WebSocketManager.handleClose. rewrite perform_all_ws. cbn.
    unfold Session.socket_becomes. by rewrite Hs.
  - pose proof (handleMessage_extends now data (Session.ws x))
      as (_ & _ & _ & _ & Hsock & _).
    destruct (WebSocketManager.handleMessage now data (Session.ws x)) as [m actions].
    rewrite perform_all_ws. cbn in *. congruence.
  - unfold AudioManager.handleAudioProcess, WebSocketManager.sendAudio. rewrite Hs.
    by destruct (AudioManager.isRecording (Session.audio x)).
  - destruct (bool_decide _); [|done]. by destruct (Room.toggleRecording _ _).
  - unfold WebSocketManager.disconnect. by rewrite perform_all_ws.
Qed.

End LeaveLemmas.

(** X9. Leaving the room ends all transmission. After [leaveRoom] the
    manager holds no socket and the audio manager is not recording, and as
    long as the page does not call [connect()] again (no retry timer fires
    and the Retry button is not used) nothing more is handed to a socket,
    whatever happens: audio frames that still arrive from the processor,
    late socket events and server messages, clicks on the microphone
    button or a second leave. *)
Theorem nothing_sent_after_leaving
    (Number : string → option Z) (url_accepted : bool) (render : Room.State)
    (x : Session.t) (events : list Session.Event) :
  Forall (fun e => reconnects e = false) events →
  let left := Session.step Number url_accepted render x Session.ClickLeave in
  let later := Session.run Number url_accepted render left events in
  WebSocketManager.socket (Session.ws left) = None
  ∧ AudioManager.isRecording (Session.audio left) = false
  ∧ WebSocketManager.socket (Session.ws later) = None
  ∧ Session.wire later = Session.wire left.
Proof.
  intros Hevents left later.
  assert (Hsock : WebSocketManager.socket (Session.ws left) = None).
  { subst left. cbn [Session.step]. unfold WebSocketManager.disconnect.
    by rewrite perform_all_ws. }
  split; [exact Hsock|]. split.
  { subst left. cbn [Session.step]. unfold WebSocketManager.disconnect.
    apply perform_all_audio_off. apply stop_not_recording. }
  subst later. clearbody left. revert left Hsock.
  induction Hevents as [|e events He Hes IH]; intros y Hy; [done|].
  unfold Session.run in *. cbn [foldl].
  pose proof (step_stays_closed Number url_accepted render y e He Hy) as Hy'.
  destruct (IH _ Hy') as [IH1 IH2]. split; [exact IH1|].
  rewrite IH2, step_wire.
  destruct e; try discriminate He; cbn [sent_on]; rewrite ?Hy;
    rewrite ?andb_false_r; by rewrite app_nil_r.
Qed.

Lemma nothing_sent_after_leaving_witness :
  let x := example_run example_session recording in
  let events := [Session.AudioProcess frame; Session.SocketClosed;
                 Session.MessageReceived 5 server_ready; Session.ClickMic;
                 Session.AudioProcess frame] in
  let left := Session.step DecimalId.Number true (Session.mounted_render None)
                x Session.ClickLeave in
  let later := Session.run DecimalId.Number true (Session.mounted_render None)
                 left events in
  WebSocketManager.socket (Session.ws left) = None
  ∧ AudioManager.isRecording (Session.audio left) = false
  ∧ WebSocketManager.socket (Session.ws later) = None
  ∧ Session.wire later = Session.wire left.
Proof.
  intros x events.
  apply (nothing_sent_after_leaving DecimalId.Number true (Session.mounted_render None)
           x events).
  subst events. repeat (constructor; [reflexivity|]). constructor.
Defined.
